(** * AgricultureML: the staleness-gated refresh pipeline of [app.py]

    A shallow embedding of the data-refresh layer of [src/app.py]
    ([update_log], [load_log], [aggregate_data], [process_data],
    [pre_process] and the serving endpoints) together with the parts of
    Python's [str], [datetime] and [pandas] that those functions call.

    Conventions of the embedding:
    - a Python exception is a value of [exn]; a call that may raise returns
      a [result];
    - the durable artifacts under [save_path] are a finite map from file
      names to file contents; code that reads and writes them runs in the
      state-and-exception monad [M], whose state survives an exception
      (what was written before the exception stays written);
    - [datetime.now()] is an input: every function that reads the clock
      takes the reading as an argument;
    - a data frame is a list of column labels and a list of rows; a cell
      is [None] for pandas' NaN and [Some text] otherwise;
    - [print] calls have no effect on the modelled state and are left out. *)

From Stdlib Require Import ZArith QArith List Ascii String Bool Lia.
From stdpp Require Import base gmap strings list.
Import ListNotations.
Close Scope Q_scope.

(** ** Python exceptions and results *)

Inductive exn : Type :=
| FileNotFoundError
| IndexError
| ValueError
| KeyError
| EmptyDataError
| StoreError
| EngineError.

Inductive result (A : Type) : Type :=
| Ok (a : A)
| Raise (e : exn).
Arguments Ok {A} a.
Arguments Raise {A} e.

Definition rbind {A B : Type} (r : result A) (k : A -> result B) : result B :=
  match r with
  | Ok a => k a
  | Raise e => Raise e
  end.

Definition is_ok {A : Type} (r : result A) : bool :=
  match r with Ok _ => true | Raise _ => false end.

(** ** Text: the fragment of [str] used by the freshness log *)

Module Text.

Definition code (c : ascii) : nat := nat_of_ascii c.

Definition is_digit (c : ascii) : bool :=
  (48 <=? code c)%nat && (code c <=? 57)%nat.

(** Characters for which [str.isspace] holds (and which the regular
    expression class [\s] accepts) in the ASCII range. *)
Definition is_space (c : ascii) : bool :=
  ((9 <=? code c)%nat && (code c <=? 13)%nat)
  || ((28 <=? code c)%nat && (code c <=? 32)%nat).

Definition digit_value (c : ascii) : Z := Z.of_nat (code c) - 48.

Definition digit_char (n : Z) : ascii := ascii_of_nat (48 + Z.to_nat n).

Fixpoint starts_with (p s : string) : bool :=
  match p with
  | EmptyString => true
  | String a p' =>
      match s with
      | EmptyString => false
      | String b s' => Ascii.eqb a b && starts_with p' s'
      end
  end.

Fixpoint rev_append (acc s : string) : string :=
  match acc with
  | EmptyString => s
  | String c acc' => rev_append acc' (String c s)
  end.

(** [s.split(sep)] for a non-empty [sep]: scan left to right, cut at every
    occurrence of [sep] that does not overlap the previous one.  [skip]
    counts the characters of a separator still to be passed over and
    [cur] is the current piece, last character first. *)
Fixpoint split_go (sep s : string) (skip : nat) (cur : string) : list string :=
  match s with
  | EmptyString => [rev_append cur EmptyString]
  | String c s' =>
      match skip with
      | S k => split_go sep s' k cur
      | O =>
          if starts_with sep s
          then rev_append cur EmptyString
                 :: split_go sep s' (String.length sep - 1) EmptyString
          else split_go sep s' O (String c cur)
      end
  end.

Definition split (s sep : string) : list string := split_go sep s O EmptyString.

(** [l[i]]: a list subscript raises [IndexError] out of range. *)
Definition subscript {A : Type} (l : list A) (i : nat) : result A :=
  match nth_error l i with
  | Some a => Ok a
  | None => Raise IndexError
  end.

End Text.

(** ** datetime: the fragment of Python's [datetime] used by the log *)

Module DateTime.
Local Open Scope Z_scope.

Record datetime : Type := mk_datetime {
  year : Z; month : Z; day : Z;
  hour : Z; minute : Z; second : Z; microsecond : Z
}.

Definition is_leap (y : Z) : bool :=
  (y mod 4 =? 0) && (negb (y mod 100 =? 0) || (y mod 400 =? 0)).

Definition DAYS_IN_MONTH : list Z :=
  [-1; 31; 28; 31; 30; 31; 30; 31; 31; 30; 31; 30; 31].

Definition DAYS_BEFORE_MONTH : list Z :=
  [-1; 0; 31; 59; 90; 120; 151; 181; 212; 243; 273; 304; 334].

Definition days_in_month (y m : Z) : Z :=
  if (m =? 2) && is_leap y then 29
  else nth (Z.to_nat m) DAYS_IN_MONTH (-1).

Definition days_before_year (y : Z) : Z :=
  let y := y - 1 in y * 365 + y / 4 - y / 100 + y / 400.

Definition days_before_month (y m : Z) : Z :=
  nth (Z.to_nat m) DAYS_BEFORE_MONTH (-1)
  + (if (2 <? m) && is_leap y then 1 else 0).

Definition ymd2ord (y m d : Z) : Z :=
  days_before_year y + days_before_month y m + d.

Definition toordinal (t : datetime) : Z := ymd2ord (year t) (month t) (day t).

(** The range checks of the [datetime] constructor. *)
Definition check_date_fields (y m d : Z) : bool :=
  (1 <=? y) && (y <=? 9999) && (1 <=? m) && (m <=? 12)
  && (1 <=? d) && (d <=? days_in_month y m).

Definition check_time_fields (H M S us : Z) : bool :=
  (0 <=? H) && (H <=? 23) && (0 <=? M) && (M <=? 59)
  && (0 <=? S) && (S <=? 59) && (0 <=? us) && (us <=? 999999).

Definition valid (t : datetime) : bool :=
  check_date_fields (year t) (month t) (day t)
  && check_time_fields (hour t) (minute t) (second t) (microsecond t).

(** [datetime(y, m, d, H, M, S, us)]: [ValueError] outside the ranges. *)
Definition make (y m d H M S us : Z) : result datetime :=
  if check_date_fields y m d && check_time_fields H M S us
  then Ok (mk_datetime y m d H M S us)
  else Raise ValueError.

(** A [timedelta] is normalised to days, seconds and microseconds and
    compared on that triple; this is the order of the total number of
    microseconds, which is what the embedding keeps. *)
Definition timedelta : Type := Z.

Definition timedelta_of (days seconds microseconds : Z) : timedelta :=
  (days * 86400 + seconds) * 1000000 + microseconds.

Definition timedelta_hours (h : Z) : timedelta := timedelta_of 0 (h * 3600) 0.

Definition seconds_of_day (t : datetime) : Z :=
  second t + minute t * 60 + hour t * 3600.

(** [a - b] on two naive datetimes. *)
Definition sub (a b : datetime) : timedelta :=
  timedelta_of (toordinal a - toordinal b)
               (seconds_of_day a - seconds_of_day b)
               (microsecond a - microsecond b).

(** *** strftime *)

Definition pad2 (n : Z) : string :=
  String (Text.digit_char (n / 10)) (String (Text.digit_char (n mod 10)) EmptyString).

Definition pad4 (n : Z) : string :=
  String (Text.digit_char (n / 1000))
    (String (Text.digit_char (n / 100 mod 10))
       (String (Text.digit_char (n / 10 mod 10))
          (String (Text.digit_char (n mod 10)) EmptyString))).

(** The text of one directive: [%d %m %H %M %S] are two digits, zero
    padded; [%Y] is the year with century on four digits.  The log's
    format uses no other directive; any other is left as it stands. *)
Definition directive_text (c : ascii) (t : datetime) : string :=
  if Ascii.eqb c "d" then pad2 (day t)
  else if Ascii.eqb c "m" then pad2 (month t)
  else if Ascii.eqb c "Y" then pad4 (year t)
  else if Ascii.eqb c "H" then pad2 (hour t)
  else if Ascii.eqb c "M" then pad2 (minute t)
  else if Ascii.eqb c "S" then pad2 (second t)
  else String "%" (String c EmptyString).

Fixpoint strftime (t : datetime) (fmt : string) : string :=
  match fmt with
  | EmptyString => EmptyString
  | String "%" (String c rest) => directive_text c t +:+ strftime t rest
  | String c rest => String c (strftime t rest)
  end.

(** *** strptime

    [_strptime] turns the format into a regular expression: a directive
    becomes a group of alternatives, a run of blanks becomes [\s+], any
    other character stands for itself.  The expression is matched at the
    start of the text by the backtracking matcher; text left over after
    the match, or field values that the [datetime] constructor rejects,
    raise [ValueError]. *)

Inductive re_item : Type :=
| RDir (c : ascii)
| RLit (c : ascii)
| RSpaces.

Fixpoint compile (fmt : string) (in_blank : bool) : list re_item :=
  match fmt with
  | EmptyString => []
  | String "%" (String c rest) => RDir c :: compile rest false
  | String c rest =>
      if Text.is_space c
      then (if in_blank then compile rest true else RSpaces :: compile rest true)
      else RLit c :: compile rest false
  end.

Definition cls : Type := ascii -> bool.

Definition between (lo hi : ascii) : cls :=
  fun c => (Text.code lo <=? Text.code c)%nat && (Text.code c <=? Text.code hi)%nat.

Definition exactly (a : ascii) : cls := fun c => Ascii.eqb a c.

Definition digit : cls := Text.is_digit.

(** The alternatives of each directive, in the order the expression
    lists them. *)
Definition alternatives (c : ascii) : option (list (list cls)) :=
  if Ascii.eqb c "d" then
    Some [[exactly "3"; between "0" "1"]; [between "1" "2"; digit];
          [exactly "0"; between "1" "9"]; [between "1" "9"];
          [exactly " "; between "1" "9"]]
  else if Ascii.eqb c "m" then
    Some [[exactly "1"; between "0" "2"]; [exactly "0"; between "1" "9"];
          [between "1" "9"]]
  else if Ascii.eqb c "Y" then
    Some [[digit; digit; digit; digit]]
  else if Ascii.eqb c "H" then
    Some [[exactly "2"; between "0" "3"]; [between "0" "1"; digit]; [digit]]
  else if Ascii.eqb c "M" then
    Some [[between "0" "5"; digit]; [digit]]
  else if Ascii.eqb c "S" then
    Some [[exactly "6"; between "0" "1"]; [between "0" "5"; digit]; [digit]]
  else None.

(** Match a sequence of character classes at the start of [s]: the value
    of the matched text and the rest of [s]. *)
Fixpoint match_seq (cs : list cls) (s : string) (acc : Z) : option (Z * string) :=
  match cs with
  | [] => Some (acc, s)
  | p :: cs' =>
      match s with
      | EmptyString => None
      | String c s' =>
          if p c
          then match_seq cs' s'
                 (if Text.is_digit c then 10 * acc + Text.digit_value c else acc)
          else None
      end
  end.

(** The fields found so far; [_strptime] starts from 1900-01-01 00:00:00. *)
Record fields : Type := mk_fields {
  f_year : Z; f_month : Z; f_day : Z; f_hour : Z; f_minute : Z; f_second : Z
}.

Definition default_fields : fields := mk_fields 1900 1 1 0 0 0.

Definition set_field (c : ascii) (v : Z) (f : fields) : fields :=
  if Ascii.eqb c "d" then mk_fields (f_year f) (f_month f) v (f_hour f) (f_minute f) (f_second f)
  else if Ascii.eqb c "m" then mk_fields (f_year f) v (f_day f) (f_hour f) (f_minute f) (f_second f)
  else if Ascii.eqb c "Y" then mk_fields v (f_month f) (f_day f) (f_hour f) (f_minute f) (f_second f)
  else if Ascii.eqb c "H" then mk_fields (f_year f) (f_month f) (f_day f) v (f_minute f) (f_second f)
  else if Ascii.eqb c "M" then mk_fields (f_year f) (f_month f) (f_day f) (f_hour f) v (f_second f)
  else if Ascii.eqb c "S" then mk_fields (f_year f) (f_month f) (f_day f) (f_hour f) (f_minute f) v
  else f.

(** Try the alternatives in order; an alternative is taken only if the
    rest of the expression, [k], matches after it. *)
Fixpoint first_alternative {R : Type} (alts : list (list cls)) (s : string)
    (k : Z -> string -> option R) : option R :=
  match alts with
  | [] => None
  | a :: alts' =>
      match match_seq a s 0 with
      | Some (v, s') =>
          match k v s' with
          | Some r => Some r
          | None => first_alternative alts' s k
          end
      | None => first_alternative alts' s k
      end
  end.

(** [\s+] is greedy: take as many blanks as there are, give them back one
    at a time while the rest of the expression, [k], does not match. *)
Fixpoint spaces {R : Type} (s : string) (k : string -> option R) : option R :=
  match s with
  | EmptyString => None
  | String c s' =>
      if Text.is_space c
      then match spaces s' k with
           | Some r => Some r
           | None => k s'
           end
      else None
  end.

(** The match of the whole expression at the start of [s]: the fields and
    the text after the match. *)
Fixpoint re_match (items : list re_item) (s : string) (f : fields)
    : option (fields * string) :=
  match items with
  | [] => Some (f, s)
  | RDir c :: items' =>
      match alternatives c with
      | Some alts =>
          first_alternative alts s (fun v s' => re_match items' s' (set_field c v f))
      | None => None
      end
  | RLit c :: items' =>
      match s with
      | String c' s' => if Ascii.eqb c c' then re_match items' s' f else None
      | EmptyString => None
      end
  | RSpaces :: items' => spaces s (fun s' => re_match items' s' f)
  end.

Definition strptime (text fmt : string) : result datetime :=
  match re_match (compile fmt false) text default_fields with
  | Some (f, EmptyString) =>
      make (f_year f) (f_month f) (f_day f) (f_hour f) (f_minute f) (f_second f) 0
  | Some (_, String _ _) => Raise ValueError
  | None => Raise ValueError
  end.

End DateTime.

(** ** pandas: the fragment of [DataFrame] used by the pipeline *)

Module Pandas.

(** A cell: [None] is NaN (a missing value), [Some text] any other value,
    compared as text. *)
Definition cell : Type := option string.

Definition cell_eqb (a b : cell) : bool :=
  match a, b with
  | Some x, Some y => String.eqb x y
  | None, None => true
  | _, _ => false
  end.

Definition notna (c : cell) : bool :=
  match c with Some _ => true | None => false end.

Definition row : Type := list cell.

Fixpoint row_eqb (a b : row) : bool :=
  match a, b with
  | [], [] => true
  | x :: a', y :: b' => cell_eqb x y && row_eqb a' b'
  | _, _ => false
  end.

Record DataFrame : Type := mk_frame {
  columns : list string;
  rows : list row
}.

(** [len(df)] *)
Definition len (df : DataFrame) : nat := length (rows df).

Definition has_label (labels : list string) (c : string) : bool :=
  existsb (String.eqb c) labels.

(** Position of the first column with a given label. *)
Fixpoint col_index (name : string) (cols : list string) : option nat :=
  match cols with
  | [] => None
  | c :: cols' =>
      if String.eqb name c then Some O
      else option_map S (col_index name cols')
  end.

Definition get (i : nat) (r : row) : cell := nth i r None.

(** The values of the column labelled [name], top to bottom. *)
Definition column (df : DataFrame) (name : string) : option (list cell) :=
  match col_index name (columns df) with
  | Some i => Some (map (get i) (rows df))
  | None => None
  end.

(** *** [pd.DataFrame(records)] *)

(** A record of the store: field names with their values. *)
Definition Doc : Type := list (string * cell).

Fixpoint doc_get (d : Doc) (k : string) : cell :=
  match d with
  | [] => None
  | (k', v) :: d' => if String.eqb k k' then v else doc_get d' k
  end.

(** The columns are the field names in the order they are first met. *)
Definition add_keys (cols : list string) (d : Doc) : list string :=
  fold_left (fun acc k => if has_label acc k then acc else acc ++ [k])
            (map fst d) cols.

Definition from_records (docs : list Doc) : DataFrame :=
  let cols := fold_left add_keys docs [] in
  mk_frame cols (map (fun d => map (doc_get d) cols) docs).

(** *** [pd.merge(left, right, left_on=..., right_on=...)] (inner join) *)

(** A label carried by both sides gets the suffix of its side. *)
Definition suffixed (other : list string) (suffix c : string) : string :=
  if has_label other c then c +:+ suffix else c.

Definition merge_columns (l r : list string) : list string :=
  map (suffixed r "_x") l ++ map (suffixed l "_y") r.

(** For every left row, in order, one output row per right row with an
    equal key.  This is the row order of pandas from 2.2 on; earlier
    versions group the rows of an inner merge by key when a left key
    repeats.  Which rows come out, and how many, is the same in both. *)
Definition join_rows (li ri : nat) (L R : list row) : list row :=
  flat_map (fun l =>
              map (fun r => l ++ r)
                  (List.filter (fun r => cell_eqb (get li l) (get ri r)) R)) L.

Definition merge (left right : DataFrame) (left_on right_on : string)
    : result DataFrame :=
  match col_index left_on (columns left), col_index right_on (columns right) with
  | Some li, Some ri =>
      Ok (mk_frame (merge_columns (columns left) (columns right))
                   (join_rows li ri (rows left) (rows right)))
  | _, _ => Raise KeyError
  end.

(** *** [df.drop(columns=labels)] and [df.rename(columns=mapping)] *)

Fixpoint select {A : Type} (mask : list bool) (l : list A) : list A :=
  match mask, l with
  | b :: mask', x :: l' => if b then x :: select mask' l' else select mask' l'
  | _, _ => []
  end.

(** Every label must name a column, else [KeyError]. *)
Definition drop (df : DataFrame) (labels : list string) : result DataFrame :=
  if forallb (has_label (columns df)) labels
  then let mask := map (fun c => negb (has_label labels c)) (columns df) in
       Ok (mk_frame (select mask (columns df)) (map (select mask) (rows df)))
  else Raise KeyError.

Fixpoint renamed (mapping : list (string * string)) (c : string) : string :=
  match mapping with
  | [] => c
  | (old, new) :: mapping' => if String.eqb c old then new else renamed mapping' c
  end.

(** Labels that the mapping does not mention stay; a mapping entry without
    a column is ignored. *)
Definition rename (df : DataFrame) (mapping : list (string * string)) : DataFrame :=
  mk_frame (map (renamed mapping) (columns df)) (rows df).

(** *** [df.dropna], [df.drop_duplicates] *)

(** Number of non-NaN values in the column at position [i]. *)
Definition count_notna (df : DataFrame) (i : nat) : nat :=
  length (List.filter (fun r => notna (get i r)) (rows df)).

(** [df.dropna(thresh=t, axis=1)]: keep the columns with at least [t]
    non-NaN values.  [t] may be fractional; it is kept as a rational. *)
Definition dropna_columns (df : DataFrame) (thresh : Q) : DataFrame :=
  let mask := map (fun i => Qle_bool thresh (inject_Z (Z.of_nat (count_notna df i))))
                  (seq 0 (length (columns df))) in
  mk_frame (select mask (columns df)) (map (select mask) (rows df)).

(** [df.dropna()]: keep the rows without NaN. *)
Definition dropna (df : DataFrame) : DataFrame :=
  mk_frame (columns df) (List.filter (forallb notna) (rows df)).

(** [df.drop_duplicates()]: keep the first of equal rows. *)
Fixpoint first_occurrences (seen rs : list row) : list row :=
  match rs with
  | [] => []
  | r :: rs' =>
      if existsb (row_eqb r) seen then first_occurrences seen rs'
      else r :: first_occurrences (r :: seen) rs'
  end.

Definition drop_duplicates (df : DataFrame) : DataFrame :=
  mk_frame (columns df) (first_occurrences [] (rows df)).

End Pandas.

(** ** Durable storage and the monad of the pipeline *)

Import Text DateTime Pandas.

Inductive File : Type :=
| TextFile (text : string)
| CsvFile (df : DataFrame).

(** The state the program acts on: the files under [save_path], and the
    calls made so far to the recommendation engine (user id and
    [num_of_rec] of each call, oldest first). *)
Record World : Type := mk_world {
  files : gmap string File;
  engine_calls : list (string * Z)
}.

Definition M (A : Type) : Type := World -> result A * World.

#[global] Instance M_ret : MRet M := fun A a w => (Ok a, w).

#[global] Instance M_bind : MBind M := fun A B k c w =>
  match c w with
  | (Ok a, w') => k a w'
  | (Raise e, w') => (Raise e, w')
  end.

(** A computation that touches no state. *)
Definition lift {A : Type} (r : result A) : M A := fun w => (r, w).

Definition write_file (path : string) (f : File) : M unit := fun w =>
  (Ok tt, mk_world (<[path := f]> (files w)) (engine_calls w)).

(** [os.path.exists(path)] *)
Definition path_exists (path : string) : M bool := fun w =>
  (Ok (bool_decide (is_Some (files w !! path))), w).

(** [open(path, "w")] then [f.write(text)] and [f.close()]: the file is
    created or truncated, then holds [text]. *)
Definition write_text (path text : string) : M unit :=
  write_file path (TextFile text).

(** [open(path, "r")] then [f.read()]: a missing file raises
    [FileNotFoundError]. *)
Definition read_text (path : string) : M string := fun w =>
  match files w !! path with
  | Some (TextFile text) => (Ok text, w)
  | Some (CsvFile _) => (Raise ValueError, w)
  | None => (Raise FileNotFoundError, w)
  end.

(** [df.to_csv(path, index=False)] *)
Definition to_csv (df : DataFrame) (path : string) : M unit :=
  write_file path (CsvFile df).

(** [pd.read_csv(path)]: a file written from a frame without columns has
    no header line, and reading it raises [EmptyDataError]. *)
Definition read_csv (path : string) : M DataFrame := fun w =>
  match files w !! path with
  | Some (CsvFile df) =>
      match columns df with
      | [] => (Raise EmptyDataError, w)
      | _ :: _ => (Ok df, w)
      end
  | Some (TextFile _) => (Raise EmptyDataError, w)
  | None => (Raise FileNotFoundError, w)
  end.

(** The document store: each collection answers a query with its records
    or with an error. *)
Definition Store : Type := string -> result (list Doc).

(** [await db[name].find().to_list(n)] *)
Definition find_to_list (db : Store) (name : string) (n : Z) : M (list Doc) :=
  lift (rbind (db name) (fun docs => Ok (firstn (Z.to_nat n) docs))).

(** ** The program: [app.py] *)

Definition data_length : Z := 100000.

Definition save_path : string := "data/".

Definition pre_process : M unit :=
  df ← read_csv (save_path +:+ "processed.csv");
  let df := dropna_columns df (inject_Z (Z.of_nat (len df)) * 0.25)%Q in
  let df := dropna df in
  let df := dropna df in
  let df := drop_duplicates df in
  to_csv df (save_path +:+ "pre_processed.csv").

Definition update_log (now : datetime) : M unit :=
  e ← path_exists (save_path +:+ "log.txt");
  (if negb e then write_text (save_path +:+ "log.txt") "" else mret tt);;
  write_text (save_path +:+ "log.txt")
             ("Last updated: " +:+ strftime now "%d/%m/%Y %H:%M:%S").

Definition load_log (now : datetime) : M bool :=
  read_data ← read_text (save_path +:+ "log.txt");
  new_datetime ← lift (subscript (split read_data "Last updated: ") 1);
  new_datetime ← lift (strptime new_datetime "%d/%m/%Y %H:%M:%S");
  if (timedelta_hours 1 <? sub now new_datetime)%Z
  then mret true
  else mret false.

(** [aggregate_data] between reading and saving.  The first join is
    followed by the removal of [_id_y] and the renaming of [_id_x]; the
    second and the third are not. *)
Definition join_customers (interactions customers : DataFrame) : result DataFrame :=
  rbind (merge interactions customers "customerId" "_id") (fun df =>
  rbind (drop df ["_id_y"]) (fun df =>
  Ok (rename df [("_id_x", "_id")]))).

Definition join_products (df products : DataFrame) : result DataFrame :=
  merge df products "productId" "_id".

Definition join_categories (df prodoutCategory : DataFrame) : result DataFrame :=
  merge df prodoutCategory "productCatogoryId" "_id".

Definition aggregate (interactions customers products prodoutCategory : DataFrame)
    : result DataFrame :=
  rbind (join_customers interactions customers) (fun df =>
  rbind (join_products df products) (fun df =>
  join_categories df prodoutCategory)).

Definition aggregate_data : M unit :=
  interactions ← read_csv (save_path +:+ "interactions.csv");
  customers ← read_csv (save_path +:+ "customers.csv");
  products ← read_csv (save_path +:+ "products.csv");
  prodoutCategory ← read_csv (save_path +:+ "prodoutCategory.csv");
  df ← lift (aggregate interactions customers products prodoutCategory);
  to_csv df (save_path +:+ "aggregated.csv").

Definition process_drop_list : list string :=
  ["productCatogoryId"; "_id"; "AvailableQuantity"; "productImage"; "price";
   "_id_y"; "customerPhoneNumber"; "email"; "customerFirstName";
   "customerLastName"].

Definition process_data : M unit :=
  df ← read_csv (save_path +:+ "aggregated.csv");
  df ← lift (drop df process_drop_list);
  to_csv df (save_path +:+ "processed.csv").

(** The block that [get_recommendation_load], [load_data] and
    [get_recommendation_load_update] each spell out: fetch the four
    collections, save them, then join, project, clean and stamp the log. *)
Definition refresh (db : Store) (now : datetime) : M unit :=
  interactions ← find_to_list db "interactions" data_length;
  customers ← find_to_list db "customers" data_length;
  products ← find_to_list db "products" data_length;
  prodoutCategory ← find_to_list db "prodoutCategory" data_length;
  let interactions := from_records interactions in
  let customers := from_records customers in
  let products := from_records products in
  let prodoutCategory := from_records prodoutCategory in
  to_csv interactions (save_path +:+ "interactions.csv");;
  to_csv customers (save_path +:+ "customers.csv");;
  to_csv products (save_path +:+ "products.csv");;
  to_csv prodoutCategory (save_path +:+ "prodoutCategory.csv");;
  aggregate_data;;
  process_data;;
  pre_process;;
  update_log now.

Section Endpoints.

(** The recommendation engine of [recommand.py]: a function of the user
    id and [num_of_rec] that reads the stored tables and returns the
    ranked list with the user statistics, or raises. *)
Context {Recs Stat : Type}.
Variable engine : string -> Z -> gmap string File -> result (Recs * Stat).

Definition get_rec (user_id : string) (num_of_rec : Z) : M (Recs * Stat) :=
  fun w => (engine user_id num_of_rec (files w),
            mk_world (files w) (engine_calls w ++ [(user_id, num_of_rec)])).

(** Truth value of a Python [int]. *)
Definition truthy (n : Z) : bool := negb (n =? 0)%Z.

Definition get_recommendation (user_id : string) (num_of_rec : Z)
    (now : datetime) : M Recs :=
  r ← (if truthy num_of_rec
       then get_rec user_id num_of_rec
       else get_rec user_id 5);
  update_log now;;
  mret (fst r).

Definition get_recommendation_load (db : Store) (user_id : string)
    (num_of_rec : Z) (now : datetime) : M Recs :=
  refresh db now;;
  r ← (if truthy num_of_rec
       then get_rec user_id num_of_rec
       else get_rec user_id 5);
  mret (fst r).

Definition load_data (db : Store) (now : datetime) : M string :=
  refresh db now;;
  mret "success".

(** [now] is the clock as [load_log] reads it, [now'] as the later
    [update_log] reads it. *)
Definition get_recommendation_load_update (db : Store) (user_id : string)
    (num_of_rec : Z) (now now' : datetime) : M Recs :=
  stale ← load_log now;
  (if stale : bool then refresh db now' else mret tt);;
  r ← (if truthy num_of_rec
       then get_rec user_id num_of_rec
       else get_rec user_id 5);
  mret (fst r).

End Endpoints.

(** ** Vocabulary of the statements *)

(** The freshness record as stored. *)
Definition log_of (w : World) : option File :=
  files w !! (save_path +:+ "log.txt").

(** A computation that leaves the freshness record and the list of engine
    calls as they were, whatever its outcome. *)
Definition keeps_log_and_calls {A : Type} (c : M A) : Prop :=
  forall w, log_of (snd (c w)) = log_of w
            /\ engine_calls (snd (c w)) = engine_calls w.

(** The text [update_log] writes when the clock reads [now]. *)
Definition stamp (now : datetime) : File :=
  TextFile ("Last updated: " +:+ strftime now "%d/%m/%Y %H:%M:%S").

(** A run that either raises with the freshness record untouched, or
    completes with the record stamped [now]; it makes no engine call. *)
Definition stamps_on_success (now : datetime) (c : M unit) : Prop :=
  forall w,
    (exists e w', c w = (Raise e, w') /\ log_of w' = log_of w
                  /\ engine_calls w' = engine_calls w)
    \/ (exists w', c w = (Ok tt, w') /\ log_of w' = Some (stamp now)
                   /\ engine_calls w' = engine_calls w).

(** The [num_of_rec] that reaches the engine. *)
Definition passed_num_of_rec (num_of_rec : Z) : Z :=
  if (num_of_rec =? 0)%Z then 5%Z else num_of_rec.

(** Number of NaN values in the column at position [i]. *)
Definition count_na (df : DataFrame) (i : nat) : nat :=
  length (List.filter (fun r => negb (notna (get i r))) (rows df)).

(** The format of the freshness record and the text before the timestamp. *)
Definition log_format : string := "%d/%m/%Y %H:%M:%S".
Definition log_marker : string := "Last updated: ".

(** A clock reading as the log keeps it: without the microseconds. *)
Definition to_seconds (t : datetime) : datetime :=
  mk_datetime (year t) (month t) (day t) (hour t) (minute t) (second t) 0.

Fixpoint string_forall (p : ascii -> bool) (s : string) : bool :=
  match s with
  | EmptyString => true
  | String c s' => p c && string_forall p s'
  end.

(** The columns of the four raw tables, as the models of [app.py] declare
    them ([InteractionsModel], [CustomerModel], [ProductsModel],
    [ProductCategoriesModel], with [id] stored as [_id]). *)
Definition interactions_columns : list string :=
  ["_id"; "customerId"; "productId"; "interactionType"].

Definition customers_columns : list string :=
  ["_id"; "customerFirstName"; "customerLastName"; "email"; "customerPhoneNumber"].

Definition products_columns : list string :=
  ["_id"; "productName"; "price"; "productImage"; "description";
   "productCatogoryId"; "AvailableQuantity"].

Definition categories_columns : list string :=
  ["_id"; "productCatrgoryName"; "productCategoryId"].

(** Every row has one cell per column. *)
Definition frame_ok (df : DataFrame) : Prop :=
  List.Forall (fun r => length r = length (columns df)) (rows df).

(** The cell of row [r] under the label [name], for a table with the
    columns [cols]. *)
Definition field (cols : list string) (name : string) (r : row) : cell :=
  match col_index name cols with
  | Some i => get i r
  | None => None
  end.

(** No two rows carry the same identifier. *)
Definition unique_id (df : DataFrame) : Prop :=
  List.NoDup (map (field (columns df) "_id") (rows df)).

(** The foreign keys of the interaction [i] resolve: its customer exists,
    its product exists, and the category of that product exists. *)
Definition resolves (customers products categories : DataFrame) (i : row) : Prop :=
  (exists c, In c (rows customers)
             /\ field customers_columns "_id" c
                = field interactions_columns "customerId" i)
  /\ (exists p, In p (rows products)
                /\ field products_columns "_id" p
                   = field interactions_columns "productId" i
                /\ exists g, In g (rows categories)
                             /\ field categories_columns "_id" g
                                = field products_columns "productCatogoryId" p).

(** The columns of the table [aggregate_data] stores. *)
Definition aggregated_columns : list string :=
  ["_id_x"; "customerId"; "productId"; "interactionType";
   "customerFirstName"; "customerLastName"; "email"; "customerPhoneNumber";
   "_id_y"; "productName"; "price"; "productImage"; "description";
   "productCatogoryId"; "AvailableQuantity";
   "_id"; "productCatrgoryName"; "productCategoryId"].

(** The rows of the table [aggregate_data] stores, for raw tables with the
    declared columns: the customer's [_id] cell is the one dropped. *)
Definition aggregated_rows (I C P G : list row) : list row :=
  join_rows 13 0
    (join_rows 2 0
       (map (select [true; true; true; true; false; true; true; true; true])
            (join_rows 1 0 I C))
       P)
    G.

(** The disambiguation rule as the design states it, for one join: a
    label carried by both sides appears once in the output, under its
    base name, with no suffixed copy beside it. *)
Definition keeps_left_drops_right (left right out : DataFrame) : Prop :=
  forall c, In c (columns left) -> In c (columns right) ->
    count_occ string_dec (columns out) c = 1%nat
    /\ ~ In (c +:+ "_x") (columns out)
    /\ ~ In (c +:+ "_y") (columns out).

(** The identifier columns of a table: the labels that start with [_id]. *)
Definition identifier_columns (df : DataFrame) : list string :=
  List.filter (starts_with "_id") (columns df).

(** The world after the four raw tables have been saved. *)
Definition saved (I C P G : DataFrame) (w : World) : World :=
  mk_world
    (<[save_path +:+ "prodoutCategory.csv" := CsvFile G]>
       (<[save_path +:+ "products.csv" := CsvFile P]>
          (<[save_path +:+ "customers.csv" := CsvFile C]>
             (<[save_path +:+ "interactions.csv" := CsvFile I]> (files w)))))
    (engine_calls w).

(** ** Sample data

    Three customers, three products, one category and five interactions,
    one of which ([i3]) names a customer that does not exist. *)

Definition interaction_doc (id customer product kind : string) : Doc :=
  [("_id", Some id); ("customerId", Some customer); ("productId", Some product);
   ("interactionType", Some kind)].

Definition customer_doc (id first last mail phone : string) : Doc :=
  [("_id", Some id); ("customerFirstName", Some first);
   ("customerLastName", Some last); ("email", Some mail);
   ("customerPhoneNumber", Some phone)].

Definition product_doc (id name price image text category quantity : string) : Doc :=
  [("_id", Some id); ("productName", Some name); ("price", Some price);
   ("productImage", Some image); ("description", Some text);
   ("productCatogoryId", Some category); ("AvailableQuantity", Some quantity)].

Definition category_doc (id name code : string) : Doc :=
  [("_id", Some id); ("productCatrgoryName", Some name);
   ("productCategoryId", Some code)].

Definition sample_interactions : list Doc :=
  [interaction_doc "i1" "c1" "p1" "1"; interaction_doc "i2" "c2" "p2" "2";
   interaction_doc "i3" "c9" "p1" "1"; interaction_doc "i4" "c3" "p3" "3";
   interaction_doc "i5" "c1" "p2" "1"].

Definition sample_customers : list Doc :=
  [customer_doc "c1" "Ann" "Lee" "ann@example.org" "+9411";
   customer_doc "c2" "Bo" "Kim" "bo@example.org" "+9422";
   customer_doc "c3" "Cy" "Roy" "cy@example.org" "+9433"].

Definition sample_products : list Doc :=
  [product_doc "p1" "Apple" "1.99" "apple.png" "A red apple" "g1" "100";
   product_doc "p2" "Pear" "2.49" "pear.png" "A green pear" "g1" "40";
   product_doc "p3" "Fig" "3.10" "fig.png" "A ripe fig" "g1" "12"].

Definition sample_categories : list Doc :=
  [category_doc "g1" "Fruits" "1"].

Definition sample_db : Store := fun name =>
  if String.eqb name "interactions" then Ok sample_interactions
  else if String.eqb name "customers" then Ok sample_customers
  else if String.eqb name "products" then Ok sample_products
  else if String.eqb name "prodoutCategory" then Ok sample_categories
  else Raise StoreError.

(** The same store with an empty Customer collection, and a store whose
    four collections are all empty. *)
Definition no_customers_db : Store := fun name =>
  if String.eqb name "customers" then Ok [] else sample_db name.

Definition empty_db : Store := fun name => Ok [].

Definition I0 : DataFrame := from_records sample_interactions.
Definition C0 : DataFrame := from_records sample_customers.
Definition P0 : DataFrame := from_records sample_products.
Definition G0 : DataFrame := from_records sample_categories.

(** The sample after the first join (with [_id_y] dropped and [_id_x]
    renamed), after the second join, and after the third. *)
Definition joined1 : DataFrame :=
  Eval vm_compute in
    match join_customers I0 C0 with Ok df => df | Raise _ => mk_frame [] [] end.

Definition joined2 : DataFrame :=
  Eval vm_compute in
    match join_products joined1 P0 with Ok df => df | Raise _ => mk_frame [] [] end.

Definition joined3 : DataFrame :=
  Eval vm_compute in
    match join_categories joined2 G0 with Ok df => df | Raise _ => mk_frame [] [] end.

Definition fresh_world : World := mk_world ∅ [].

Definition world_with_log (text : string) : World :=
  mk_world {[ save_path +:+ "log.txt" := TextFile text ]} [].

Definition new_year_eve : datetime := mk_datetime 2023 12 31 23 30 0 123456.
Definition new_year (H M S us : Z) : datetime := mk_datetime 2024 1 1 H M S us.

(** A ProcessedTable of 100 rows: [productName] is NaN in 80 of them,
    [description] in 70. *)
Definition hundred_rows : DataFrame :=
  mk_frame ["productName"; "description"]
    (repeat [None; None] 70
     ++ repeat [None; Some "A red apple"] 10
     ++ repeat [Some "Apple"; Some "A red apple"] 20).

(** An engine that recommends nothing. *)
Definition no_engine : string -> Z -> gmap string File -> result (list string * unit) :=
  fun _ _ _ => Ok ([], tt).

Definition has_columns (df : DataFrame) : bool :=
  match columns df with
  | [] => false
  | _ :: _ => true
  end.

(** The world after a full run on the sample at 23:30:00 on New Year's
    Eve, a world that holds only the 100-row table, and a world that holds
    only a log stamped at that time. *)
Definition sample_world : World :=
  snd (refresh sample_db new_year_eve fresh_world).

Definition hundred_world : World :=
  mk_world {[ save_path +:+ "processed.csv" := CsvFile hundred_rows ]} [].

Definition stamped_world : World := snd (update_log new_year_eve fresh_world).

(** ** Vocabulary of the further properties *)

(** The table [pre_process] computes from the table it reads. *)
Definition cleaned (df : DataFrame) : DataFrame :=
  drop_duplicates
    (dropna (dropna (dropna_columns df (inject_Z (Z.of_nat (len df)) * 0.25)%Q))).

(** No cell of the table is NaN. *)
Definition no_nan (df : DataFrame) : Prop :=
  List.Forall (fun r => forallb notna r = true) (rows df).

(** [resolves], as a test. *)
Definition resolvesb (customers products categories : DataFrame) (i : row) : bool :=
  existsb (fun c => cell_eqb (field customers_columns "_id" c)
                             (field interactions_columns "customerId" i))
          (rows customers)
  && existsb (fun p =>
                cell_eqb (field products_columns "_id" p)
                         (field interactions_columns "productId" i)
                && existsb (fun g =>
                              cell_eqb (field categories_columns "_id" g)
                                       (field products_columns "productCatogoryId" p))
                           (rows categories))
             (rows products).

(** The columns of the table [process_data] stores when its input is the
    table [aggregate_data] stores. *)
Definition processed_columns : list string :=
  ["_id_x"; "customerId"; "productId"; "interactionType"; "productName";
   "description"; "productCatrgoryName"; "productCategoryId"].

(** A non-empty collection whose records all carry the fields [cols], in
    that order. *)
Definition shaped (cols : list string) (docs : list Doc) : Prop :=
  docs <> [] /\ List.Forall (fun d => map fst d = cols) docs.

(** A stage that either raises and leaves the world as it was, or
    completes and overwrites the one file [path] with a table. *)
Definition writes_only (path : string) (c : M unit) : Prop :=
  forall w,
    (exists e, c w = (Raise e, w))
    \/ (exists df, c w = (Ok tt, mk_world (<[path := CsvFile df]> (files w))
                                          (engine_calls w))).

(** A computation that leaves the file [path] as it was. *)
Definition keeps_file {A : Type} (path : string) (c : M A) : Prop :=
  forall w, files (snd (c w)) !! path = files w !! path.

(** A computation that only reads. *)
Definition reads_only {A : Type} (c : M A) : Prop :=
  forall w, snd (c w) = w.

(** A store whose Product collection cannot be read. *)
Definition failing_db : Store := fun name =>
  if String.eqb name "products" then Raise StoreError else sample_db name.

(** The sample's ProcessedTable, alone in a world. *)
Definition sample_processed : DataFrame :=
  Eval vm_compute in
    match drop joined3 process_drop_list with
    | Ok df => df
    | Raise _ => mk_frame [] []
    end.

Definition processed_world : World :=
  mk_world {[ save_path +:+ "processed.csv" := CsvFile sample_processed ]} [].

(** * Properties *)

(** ** The monad *)

Lemma bind_run {A B : Type} (c : M A) (k : A -> M B) (w : World) :
  (c ≫= k) w = match c w with
               | (Ok a, w') => k a w'
               | (Raise e, w') => (Raise e, w')
               end.
Proof. reflexivity. Qed.

Lemma bind_ok {A B : Type} (c : M A) (k : A -> M B) (w w' : World) (a : A) :
  c w = (Ok a, w') -> (c ≫= k) w = k a w'.
Proof. intros H. rewrite bind_run, H. reflexivity. Qed.

Lemma bind_raise {A B : Type} (c : M A) (k : A -> M B) (w w' : World) (e : exn) :
  c w = (Raise e, w') -> (c ≫= k) w = (Raise e, w').
Proof. intros H. rewrite bind_run, H. reflexivity. Qed.

(** ** What the steps leave alone *)

Lemma keeps_ret {A : Type} (a : A) : keeps_log_and_calls (mret a : M A).
Proof. intros w. split; reflexivity. Qed.

Lemma keeps_lift {A : Type} (r : result A) : keeps_log_and_calls (lift r).
Proof. intros w. split; reflexivity. Qed.

Lemma keeps_bind {A B : Type} (c : M A) (k : A -> M B) :
  keeps_log_and_calls c -> (forall a, keeps_log_and_calls (k a)) ->
  keeps_log_and_calls (c ≫= k).
Proof.
  intros Hc Hk w. rewrite bind_run.
  destruct (Hc w) as [Hl He].
  destruct (c w) as [[a | e] w']; simpl in *.
  - destruct (Hk a w') as [Hl' He']. split; congruence.
  - split; assumption.
Qed.

Lemma keeps_find_to_list db name n : keeps_log_and_calls (find_to_list db name n).
Proof. apply keeps_lift. Qed.

Lemma keeps_read_csv path : keeps_log_and_calls (read_csv path).
Proof.
  intros w. unfold read_csv.
  destruct (files w !! path) as [[text | df] |]; try (split; reflexivity).
  destruct (columns df); split; reflexivity.
Qed.

Lemma keeps_to_csv df name :
  name <> "log.txt" -> keeps_log_and_calls (to_csv df (save_path +:+ name)).
Proof.
  intros Hne w. split; [| reflexivity].
  unfold log_of, to_csv, write_file. simpl files.
  apply lookup_insert_ne. intros Heq. apply Hne.
  unfold save_path in Heq. cbv [String.append] in Heq. congruence.
Qed.

Create HintDb keeps.
#[local] Hint Resolve keeps_ret keeps_lift keeps_find_to_list keeps_read_csv : keeps.
#[local] Hint Extern 2 (keeps_log_and_calls (to_csv _ _)) =>
  apply keeps_to_csv; discriminate : keeps.
#[local] Hint Extern 3 (keeps_log_and_calls (_ ≫= _)) =>
  apply keeps_bind; [ | intros ? ] : keeps.

Lemma keeps_aggregate_data : keeps_log_and_calls aggregate_data.
Proof. unfold aggregate_data. auto 20 with keeps. Qed.

Lemma keeps_process_data : keeps_log_and_calls process_data.
Proof. unfold process_data. auto 20 with keeps. Qed.

Lemma keeps_pre_process : keeps_log_and_calls pre_process.
Proof. unfold pre_process. auto 20 with keeps. Qed.

#[local] Hint Resolve keeps_aggregate_data keeps_process_data keeps_pre_process : keeps.


(** ** The freshness log *)

Lemma update_log_run now w :
  update_log now w =
  (Ok tt, mk_world (<[save_path +:+ "log.txt" := stamp now]> (files w))
                   (engine_calls w)).
Proof.
  unfold update_log. rewrite bind_run. unfold path_exists.
  destruct (bool_decide (is_Some (files w !! (save_path +:+ "log.txt")))); simpl.
  - reflexivity.
  - rewrite bind_run. unfold write_text, write_file. simpl.
    rewrite insert_insert_eq. reflexivity.
Qed.

Lemma read_text_world path w : snd (read_text path w) = w.
Proof.
  unfold read_text. destruct (files w !! path) as [[text | df] |]; reflexivity.
Qed.

Lemma load_log_world now w : snd (load_log now w) = w.
Proof.
  unfold load_log. rewrite bind_run.
  pose proof (read_text_world (save_path +:+ "log.txt") w) as Hr.
  destruct (read_text _ w) as [[text | e] w1]; simpl in Hr; subst w1; [| reflexivity].
  rewrite bind_run. unfold lift.
  destruct (subscript _ 1) as [ts | e]; [| reflexivity].
  rewrite bind_run.
  destruct (strptime ts _) as [t | e]; [| reflexivity].
  destruct (_ <? _)%Z; reflexivity.
Qed.


Lemma stamps_update_log now : stamps_on_success now (update_log now).
Proof.
  intros w. right. eexists. split; [apply update_log_run |].
  split; [| reflexivity]. unfold log_of. simpl. apply lookup_insert_eq.
Qed.

Lemma stamps_bind {A : Type} now (c : M A) (k : A -> M unit) :
  keeps_log_and_calls c -> (forall a, stamps_on_success now (k a)) ->
  stamps_on_success now (c ≫= k).
Proof.
  intros Hc Hk w. rewrite bind_run.
  destruct (Hc w) as [Hl He].
  destruct (c w) as [[a | e] w1]; simpl in *.
  - destruct (Hk a w1) as [(e & w' & Hrun & Hl' & He') | (w' & Hrun & Hl' & He')].
    + left. exists e, w'. repeat split; congruence.
    + right. exists w'. repeat split; congruence.
  - left. exists e, w1. auto.
Qed.

Lemma stamps_refresh db now : stamps_on_success now (refresh db now).
Proof.
  unfold refresh.
  repeat match goal with
         | |- stamps_on_success _ (_ ≫= _) =>
             apply stamps_bind; [auto with keeps | intros ?]
         end.
  apply stamps_update_log.
Qed.

(** ** The endpoints *)

Lemma get_rec_arg_run {Recs Stat : Type}
    (engine : string -> Z -> gmap string File -> result (Recs * Stat))
    (user_id : string) (num_of_rec : Z) (w : World) :
  (if truthy num_of_rec
   then get_rec engine user_id num_of_rec
   else get_rec engine user_id 5) w
  = (engine user_id (passed_num_of_rec num_of_rec) (files w),
     mk_world (files w)
              (engine_calls w ++ [(user_id, passed_num_of_rec num_of_rec)])).
Proof.
  unfold truthy, passed_num_of_rec.
  destruct (num_of_rec =? 0)%Z; reflexivity.
Qed.

(** C10: at each of the three serving endpoints the engine is called with
    [num_of_rec = 5] when the caller supplies 0 and with the supplied value
    otherwise.  [get_recommendation] always makes the call;
    [get_recommendation_load] makes it when the refresh before it completes;
    [get_recommendation_load_update] makes it when the staleness test
    returns, and, if the test says stale, the refresh completes. *)
Theorem endpoints_replace_zero_num_of_rec {Recs Stat : Type}
    (engine : string -> Z -> gmap string File -> result (Recs * Stat))
    (db : Store) (user_id : string) (num_of_rec : Z)
    (now now' : datetime) (w : World) :
  let passed := if (num_of_rec =? 0)%Z then 5%Z else num_of_rec in
  engine_calls (snd (get_recommendation engine user_id num_of_rec now w))
  = engine_calls w ++ [(user_id, passed)]
  /\ engine_calls (snd (get_recommendation_load engine db user_id num_of_rec now w))
     = match fst (refresh db now w) with
       | Ok _ => engine_calls w ++ [(user_id, passed)]
       | Raise _ => engine_calls w
       end
  /\ engine_calls
       (snd (get_recommendation_load_update engine db user_id num_of_rec now now' w))
     = match fst (load_log now w) with
       | Ok false => engine_calls w ++ [(user_id, passed)]
       | Ok true =>
           match fst (refresh db now' w) with
           | Ok _ => engine_calls w ++ [(user_id, passed)]
           | Raise _ => engine_calls w
           end
       | Raise _ => engine_calls w
       end.
Proof.
  intros passed.
  assert (Hp : passed = passed_num_of_rec num_of_rec) by reflexivity.
  rewrite Hp. clear Hp passed.
  split; [| split].
  - unfold get_recommendation. rewrite bind_run, get_rec_arg_run.
    destruct (engine _ _ _) as [r | e]; [| reflexivity].
    rewrite bind_run, update_log_run. reflexivity.
  - unfold get_recommendation_load. rewrite bind_run.
    destruct (stamps_refresh db now w)
      as [(e & w' & Hrun & _ & He) | (w' & Hrun & _ & He)];
      rewrite Hrun; simpl; [assumption |].
    rewrite bind_run, get_rec_arg_run.
    destruct (engine _ _ _) as [r | e]; simpl; rewrite He; reflexivity.
  - unfold get_recommendation_load_update. rewrite bind_run.
    pose proof (load_log_world now w) as Hw.
    destruct (load_log now w) as [[[|] | e] w1]; simpl in Hw; subst w1; simpl;
      [| | reflexivity].
    + rewrite bind_run.
      destruct (stamps_refresh db now' w)
        as [(e & w' & Hrun & _ & He) | (w' & Hrun & _ & He)];
        rewrite Hrun; simpl; [assumption |].
      rewrite bind_run, get_rec_arg_run.
      destruct (engine _ _ _) as [r | e]; simpl; rewrite He; reflexivity.
    + rewrite bind_run. simpl. rewrite bind_run, get_rec_arg_run.
      destruct (engine _ _ _) as [r | e]; reflexivity.
Qed.

Lemma load_log_reads_log now w1 w2 :
  log_of w1 = log_of w2 -> fst (load_log now w1) = fst (load_log now w2).
Proof.
  intros Hlog. unfold load_log. rewrite !bind_run. unfold read_text.
  unfold log_of in Hlog. rewrite Hlog.
  destruct (files w2 !! _) as [[text | df] |]; try reflexivity.
  rewrite !bind_run. unfold lift.
  destruct (subscript _ 1) as [ts | e]; [| reflexivity].
  rewrite !bind_run.
  destruct (strptime ts _) as [t | e]; [| reflexivity].
  destruct (_ <? _)%Z; reflexivity.
Qed.

(** C8: a pipeline run in which a stage raises does not touch the Freshness
    Log.  If the refresh block raises [e], the stored record is the one
    from before the run, every endpoint built on the block
    ([load_data], [get_recommendation_load], and
    [get_recommendation_load_update] when the log is stale) raises [e] with
    the record unchanged, and a later staleness test answers as it would
    have before the run. *)
Theorem failed_run_keeps_freshness_log {Recs Stat : Type}
    (engine : string -> Z -> gmap string File -> result (Recs * Stat))
    (db : Store) (user_id : string) (num_of_rec : Z)
    (now now' later : datetime) (w : World) (e : exn) :
  fst (refresh db now' w) = Raise e ->
  log_of (snd (refresh db now' w)) = log_of w
  /\ fst (load_data db now' w) = Raise e
  /\ log_of (snd (load_data db now' w)) = log_of w
  /\ fst (load_log later (snd (load_data db now' w))) = fst (load_log later w)
  /\ fst (get_recommendation_load engine db user_id num_of_rec now' w) = Raise e
  /\ log_of (snd (get_recommendation_load engine db user_id num_of_rec now' w))
     = log_of w
  /\ (fst (load_log now w) = Ok true ->
      fst (get_recommendation_load_update engine db user_id num_of_rec now now' w)
      = Raise e
      /\ log_of (snd (get_recommendation_load_update engine db user_id num_of_rec
                        now now' w))
         = log_of w).
Proof.
  intros Hfail.
  destruct (stamps_refresh db now' w)
    as [(e' & w' & Hrun & Hl & He) | (w' & Hrun & _ & _)];
    rewrite Hrun in Hfail; simpl in Hfail; [| discriminate].
  injection Hfail as ->.
  assert (Hld : load_data db now' w = (Raise e, w')).
  { unfold load_data. rewrite bind_run, Hrun. reflexivity. }
  assert (Hgl : get_recommendation_load engine db user_id num_of_rec now' w
                = (Raise e, w')).
  { unfold get_recommendation_load. rewrite bind_run, Hrun. reflexivity. }
  rewrite Hrun, Hld, Hgl. simpl.
  do 3 (split; [first [reflexivity | assumption] |]).
  split; [apply load_log_reads_log; assumption |].
  do 2 (split; [first [reflexivity | assumption] |]).
  intros Hstale.
  unfold get_recommendation_load_update. rewrite bind_run.
  pose proof (load_log_world now w) as Hw.
  destruct (load_log now w) as [[b | e0] w1]; simpl in *; subst w1;
    [| discriminate].
  injection Hstale as ->. rewrite bind_run, Hrun. simpl. split; [reflexivity | assumption].
Qed.

(** ** Column selection *)

Lemma has_label_In labels c : has_label labels c = true <-> In c labels.
Proof.
  unfold has_label. rewrite existsb_exists. split.
  - intros (x & Hin & Heq). apply String.eqb_eq in Heq. subst. assumption.
  - intros Hin. exists c. split; [assumption | apply String.eqb_refl].
Qed.

Lemma has_label_false labels c : has_label labels c = false <-> ~ In c labels.
Proof.
  rewrite <- has_label_In. destruct (has_label labels c); split; intros H;
    try reflexivity; try discriminate; try (intros Hc; discriminate).
  exfalso. apply H. reflexivity.
Qed.

Lemma select_map_filter {A : Type} (f : A -> bool) (l : list A) :
  select (map f l) l = List.filter f l.
Proof.
  induction l as [| x l IH]; simpl; [reflexivity |].
  destruct (f x); rewrite IH; reflexivity.
Qed.

Lemma drop_run df labels :
  drop df labels =
  if forallb (has_label (columns df)) labels
  then Ok (mk_frame
             (List.filter (fun c => negb (has_label labels c)) (columns df))
             (map (select (map (fun c => negb (has_label labels c)) (columns df)))
                  (rows df)))
  else Raise KeyError.
Proof.
  unfold drop. destruct (forallb _ labels); [| reflexivity].
  rewrite select_map_filter. reflexivity.
Qed.

Lemma drop_columns df labels out c :
  drop df labels = Ok out ->
  In c (columns out) <-> In c (columns df) /\ ~ In c labels.
Proof.
  rewrite drop_run. destruct (forallb _ labels); [| discriminate].
  intros [= <-]. simpl. rewrite filter_In, negb_true_iff, has_label_false.
  reflexivity.
Qed.

Lemma drop_missing df labels c :
  In c labels -> ~ In c (columns df) -> drop df labels = Raise KeyError.
Proof.
  intros Hin Hnot. rewrite drop_run.
  destruct (forallb _ labels) eqn:Hall; [| reflexivity].
  rewrite forallb_forall in Hall. apply Hall in Hin.
  apply has_label_In in Hin. contradiction.
Qed.

Lemma read_csv_run path w df :
  files w !! path = Some (CsvFile df) ->
  read_csv path w = (match columns df with
                     | [] => Raise EmptyDataError
                     | _ :: _ => Ok df
                     end, w).
Proof.
  intros H. unfold read_csv. rewrite H. destruct (columns df); reflexivity.
Qed.

(** C5, as the code has it: on a stored AggregatedTable that carries every
    label of the drop list, [process_data] completes and stores a
    ProcessedTable whose columns are those of the input, in order, without
    the labels of the drop list; none of [_id], [productCatogoryId],
    [AvailableQuantity], [productImage], [price], [_id_y],
    [customerPhoneNumber], [email], [customerFirstName],
    [customerLastName] is left, and the rows are as many as before.  The
    row identifier is not among them: on the table [aggregate_data] stores
    the interaction's identifier is the column [_id_x], which is not in
    the drop list, and it is kept with its values; the [_id] that is
    dropped there is the category's. *)
Theorem process_data_drops_exclusion_list (w : World) (df : DataFrame) :
  files w !! (save_path +:+ "aggregated.csv") = Some (CsvFile df) ->
  (forall c, In c process_drop_list -> In c (columns df)) ->
  exists out,
    process_data w
    = (Ok tt, mk_world (<[save_path +:+ "processed.csv" := CsvFile out]> (files w))
                       (engine_calls w))
    /\ columns out
       = List.filter (fun c => negb (has_label process_drop_list c)) (columns df)
    /\ (forall c, In c (columns out) <-> In c (columns df) /\ ~ In c process_drop_list)
    /\ Forall (fun c => ~ In c (columns out))
         ["_id"; "productCatogoryId"; "AvailableQuantity"; "productImage";
          "price"; "customerPhoneNumber"; "email"; "customerFirstName";
          "customerLastName"; "_id_y"]
    /\ len out = len df
    /\ (In "_id_x" (columns df) -> In "_id_x" (columns out))
    /\ (columns df = aggregated_columns ->
        columns out = processed_columns
        /\ column out "_id_x" = column df "_id_x").
Proof.
  intros Hfile Hall.
  assert (Hcols : columns df <> []).
  { intros Hnil. specialize (Hall "_id"). rewrite Hnil in Hall.
    apply Hall. unfold process_drop_list. simpl. auto. }
  assert (Hforall : forallb (has_label (columns df)) process_drop_list = true).
  { apply forallb_forall. intros c Hc. apply has_label_In. auto. }
  pose proof (drop_run df process_drop_list) as Hdrop. rewrite Hforall in Hdrop.
  assert (Hread : read_csv (save_path +:+ "aggregated.csv") w = (Ok df, w)).
  { rewrite (read_csv_run _ _ _ Hfile).
    destruct (columns df); [contradiction | reflexivity]. }
  eexists. split.
  { unfold process_data. rewrite bind_run, Hread.
    rewrite bind_run. unfold lift. rewrite Hdrop. reflexivity. }
  split; [reflexivity |].
  split; [intros c; apply (drop_columns df process_drop_list); assumption |].
  split.
  { apply List.Forall_forall. intros c Hc. cbn [columns].
    rewrite filter_In, negb_true_iff, has_label_false.
    intros [_ Hn]. apply Hn. unfold process_drop_list. simpl in Hc |- *. tauto. }
  split; [unfold len; simpl; apply length_map |].
  split.
  { intros Hin. cbn [columns]. apply filter_In. split; [assumption | reflexivity]. }
  intros Hagg. unfold column. cbn [columns rows]. rewrite Hagg.
  split; [reflexivity |].
  assert (E1 : col_index "_id_x"
                 (List.filter (fun c => negb (has_label process_drop_list c))
                              aggregated_columns) = Some 0%nat) by reflexivity.
  assert (E2 : col_index "_id_x" aggregated_columns = Some 0%nat) by reflexivity.
  rewrite E1, E2. f_equal. rewrite map_map. apply map_ext.
  intros r. destruct r; reflexivity.
Qed.

(** C5 fails as stated: the row identifier is not absent from the
    ProcessedTable.  On the sample run the stored ProcessedTable has the
    column [_id_x], and it holds the identifiers of the interactions; the
    [_id] column that [process_data] dropped held the category's. *)
Lemma process_data_keeps_row_identifier :
  files sample_world !! (save_path +:+ "aggregated.csv") = Some (CsvFile joined3)
  /\ files sample_world !! (save_path +:+ "processed.csv")
     = Some (CsvFile sample_processed)
  /\ column I0 "_id"
     = Some [Some "i1"; Some "i2"; Some "i3"; Some "i4"; Some "i5"]
  /\ In "_id_x" (columns sample_processed)
  /\ (exists ids,
        column sample_processed "_id_x" = Some ids
        /\ In (Some "i1") ids /\ In (Some "i2") ids
        /\ In (Some "i4") ids /\ In (Some "i5") ids)
  /\ (exists ids,
        column joined3 "_id" = Some ids
        /\ forall x, In x ids -> x = Some "g1").
Proof.
  split; [vm_compute; reflexivity |].
  split; [vm_compute; reflexivity |].
  split; [vm_compute; reflexivity |].
  split; [vm_compute; tauto |].
  split.
  - eexists. split; [vm_compute; reflexivity |]. simpl. tauto.
  - eexists. split; [vm_compute; reflexivity |]. simpl. intuition congruence.
Qed.


(** C6: [process_data] raises when a label of its drop list is not a
    column of the stored input ([KeyError], or [EmptyDataError] when the
    input has no column at all), and writes nothing.  So it cannot be run
    on its own output: the table it stores has lost the labels of the
    drop list, and dropping them again raises [KeyError]. *)
Theorem process_data_requires_drop_list (w : World) (df : DataFrame) :
  files w !! (save_path +:+ "aggregated.csv") = Some (CsvFile df) ->
  ((exists c, In c process_drop_list /\ ~ In c (columns df)) ->
   drop df process_drop_list = Raise KeyError
   /\ process_data w
      = (Raise (match columns df with [] => EmptyDataError | _ :: _ => KeyError end),
         w))
  /\ (forall w1, process_data w = (Ok tt, w1) ->
      exists out,
        files w1 !! (save_path +:+ "processed.csv") = Some (CsvFile out)
        /\ drop out process_drop_list = Raise KeyError
        /\ forall w2,
             files w2 !! (save_path +:+ "aggregated.csv") = Some (CsvFile out) ->
             is_ok (fst (process_data w2)) = false /\ snd (process_data w2) = w2).
Proof.
  intros Hfile.
  assert (Hfail : forall w2 d,
             files w2 !! (save_path +:+ "aggregated.csv") = Some (CsvFile d) ->
             drop d process_drop_list = Raise KeyError ->
             process_data w2
             = (Raise (match columns d with [] => EmptyDataError | _ :: _ => KeyError end),
                w2)).
  { intros w2 d Hf Hd. unfold process_data.
    rewrite bind_run, (read_csv_run _ _ _ Hf).
    destruct (columns d); [reflexivity |].
    rewrite bind_run. unfold lift. rewrite Hd. reflexivity. }
  split.
  - intros (c & Hin & Hnot).
    pose proof (drop_missing df process_drop_list c Hin Hnot) as Hd.
    split; [assumption | apply Hfail; assumption].
  - intros w1 Hrun. unfold process_data in Hrun.
    rewrite bind_run, (read_csv_run _ _ _ Hfile) in Hrun.
    destruct (columns df) as [| c0 cs] eqn:Hc; [discriminate |].
    rewrite bind_run in Hrun. unfold lift in Hrun.
    destruct (drop df process_drop_list) as [out | e] eqn:Hd; [| discriminate].
    exists out. injection Hrun as <-. simpl.
    split; [apply lookup_insert_eq |].
    assert (Hd2 : drop out process_drop_list = Raise KeyError).
    { apply (drop_missing out process_drop_list "_id").
      - unfold process_drop_list. simpl. auto.
      - intros Hin. apply (drop_columns df process_drop_list out "_id" Hd) in Hin.
        destruct Hin as [_ Hn]. apply Hn. unfold process_drop_list. simpl. auto. }
    split; [assumption |].
    intros w2 Hf. rewrite (Hfail w2 out Hf Hd2). split; reflexivity.
Qed.

(** ** The column-survival threshold of the Cleaner *)

Lemma quarter_threshold (n k : nat) :
  Qle_bool (inject_Z (Z.of_nat n) * 0.25)%Q (inject_Z (Z.of_nat k)) = true
  <-> (n <= 4 * k)%nat.
Proof.
  rewrite Qle_bool_iff. unfold Qle. simpl. lia.
Qed.

Lemma count_notna_na df i : (count_notna df i + count_na df i = len df)%nat.
Proof. unfold count_notna, count_na, len. apply List.filter_length. Qed.

Lemma col_index_nth_error name cols i :
  col_index name cols = Some i -> nth_error cols i = Some name.
Proof.
  revert i. induction cols as [| c cols IH]; simpl; intros i H; [discriminate |].
  destruct (String.eqb name c) eqn:Heq.
  - injection H as <-. apply String.eqb_eq in Heq. subst. reflexivity.
  - destruct (col_index name cols) as [j |]; [| discriminate].
    injection H as <-. simpl. apply IH. reflexivity.
Qed.

Lemma In_select_seq {A : Type} (f : nat -> bool) (l : list A) (s : nat) (x : A) :
  In x (select (map f (seq s (length l))) l)
  <-> exists i, nth_error l i = Some x /\ f (s + i)%nat = true.
Proof.
  revert s. induction l as [| y l IH]; intros s; simpl.
  - split; [contradiction | intros ([| i] & H & _); discriminate].
  - destruct (f s) eqn:Hf; simpl; rewrite IH; split.
    + intros [-> | (i & Hi & Hfi)].
      * exists 0%nat. rewrite Nat.add_0_r. auto.
      * exists (S i). rewrite Nat.add_succ_r. auto.
    + intros ([| i] & Hi & Hfi); simpl in Hi.
      * left. congruence.
      * right. exists i. rewrite Nat.add_succ_r in Hfi. auto.
    + intros (i & Hi & Hfi). exists (S i). rewrite Nat.add_succ_r. auto.
    + intros ([| i] & Hi & Hfi); simpl in Hi.
      * rewrite Nat.add_0_r in Hfi. congruence.
      * exists i. rewrite Nat.add_succ_r in Hfi. auto.
Qed.

Lemma dropna_columns_keeps df thresh c i :
  List.NoDup (columns df) -> col_index c (columns df) = Some i ->
  In c (columns (dropna_columns df thresh))
  <-> Qle_bool thresh (inject_Z (Z.of_nat (count_notna df i))) = true.
Proof.
  intros Hnd Hi. apply col_index_nth_error in Hi.
  unfold dropna_columns. cbn [columns].
  rewrite (In_select_seq
             (fun i => Qle_bool thresh (inject_Z (Z.of_nat (count_notna df i))))).
  split.
  - intros (j & Hj & Hkeep). simpl in Hkeep.
    assert (j = i) as ->; [| assumption].
    apply (proj1 (List.NoDup_nth_error (columns df)) Hnd).
    + apply nth_error_Some. congruence.
    + congruence.
  - intros Hkeep. exists i. auto.
Qed.

(** C7: [pre_process] keeps a column of the stored ProcessedTable exactly
    when at least a quarter of its values are not NaN, that is, it drops
    the column if and only if its non-NaN count is below 25% of the row
    count (more than 75% NaN).  In a table of 100 rows a column with 80
    NaN values is dropped and a column with 70 NaN values is kept. *)
Theorem pre_process_column_threshold (w : World) (df : DataFrame) :
  files w !! (save_path +:+ "processed.csv") = Some (CsvFile df) ->
  columns df <> [] ->
  List.NoDup (columns df) ->
  exists out,
    pre_process w
    = (Ok tt, mk_world (<[save_path +:+ "pre_processed.csv" := CsvFile out]> (files w))
                       (engine_calls w))
    /\ forall c i,
         col_index c (columns df) = Some i ->
         (~ In c (columns out) <-> (4 * count_notna df i < len df)%nat)
         /\ (~ In c (columns out) <-> (3 * len df < 4 * count_na df i)%nat)
         /\ (In c (columns out) <-> (len df <= 4 * count_notna df i)%nat)
         /\ (len df = 100%nat -> count_na df i = 80%nat -> ~ In c (columns out))
         /\ (len df = 100%nat -> count_na df i = 70%nat -> In c (columns out)).
Proof.
  intros Hfile Hcols Hnd.
  assert (Hread : read_csv (save_path +:+ "processed.csv") w = (Ok df, w)).
  { rewrite (read_csv_run _ _ _ Hfile).
    destruct (columns df); [contradiction | reflexivity]. }
  eexists. split.
  { unfold pre_process. rewrite bind_run, Hread. reflexivity. }
  intros c i Hi. cbn [columns drop_duplicates dropna].
  pose proof (dropna_columns_keeps df (inject_Z (Z.of_nat (len df)) * 0.25)%Q
                c i Hnd Hi) as Hkeep.
  rewrite quarter_threshold in Hkeep.
  pose proof (count_notna_na df i) as Hsum.
  repeat split; try (rewrite Hkeep; lia); intros; rewrite ?Hkeep; lia.
Qed.

(** ** Text of the freshness record *)

Lemma Z_range_cases (P : Z -> Prop) (lo : Z) (n : nat) :
  List.Forall P (map (fun k => (lo + Z.of_nat k)%Z) (seq 0 n)) ->
  forall v, (lo <= v < lo + Z.of_nat n)%Z -> P v.
Proof.
  intros Hall v Hv. rewrite List.Forall_forall in Hall. apply Hall.
  apply in_map_iff. exists (Z.to_nat (v - lo)). split; [lia |].
  apply in_seq. lia.
Qed.

Ltac by_range_cases lo n :=
  match goal with
  | |- forall v, _ -> @?P v =>
      apply (Z_range_cases P lo n); repeat constructor
  end.

Lemma digit_char_spec : forall n : Z,
  (0 <= n < 0 + Z.of_nat 10)%Z ->
  is_digit (digit_char n) = true
  /\ digit_value (digit_char n) = n
  /\ is_space (digit_char n) = false
  /\ Ascii.eqb "L" (digit_char n) = false.
Proof. by_range_cases 0%Z 10%nat; vm_compute; auto. Qed.

Section Directives.
Context {R : Type}.

Lemma first_alternative_d : forall v, (1 <= v < 1 + Z.of_nat 31)%Z ->
  forall (k : Z -> string -> option R) rest r, k v rest = Some r ->
  first_alternative
    [[exactly "3"; between "0" "1"]; [between "1" "2"; digit];
     [exactly "0"; between "1" "9"]; [between "1" "9"];
     [exactly " "; between "1" "9"]] (pad2 v +:+ rest) k = Some r.
Proof.
  by_range_cases 1%Z 31%nat; intros k rest r Hk; vm_compute in Hk |- *;
    rewrite Hk; reflexivity.
Qed.

Lemma first_alternative_m : forall v, (1 <= v < 1 + Z.of_nat 12)%Z ->
  forall (k : Z -> string -> option R) rest r, k v rest = Some r ->
  first_alternative
    [[exactly "1"; between "0" "2"]; [exactly "0"; between "1" "9"];
     [between "1" "9"]] (pad2 v +:+ rest) k = Some r.
Proof.
  by_range_cases 1%Z 12%nat; intros k rest r Hk; vm_compute in Hk |- *;
    rewrite Hk; reflexivity.
Qed.

Lemma first_alternative_H : forall v, (0 <= v < 0 + Z.of_nat 24)%Z ->
  forall (k : Z -> string -> option R) rest r, k v rest = Some r ->
  first_alternative
    [[exactly "2"; between "0" "3"]; [between "0" "1"; digit]; [digit]]
    (pad2 v +:+ rest) k = Some r.
Proof.
  by_range_cases 0%Z 24%nat; intros k rest r Hk; vm_compute in Hk |- *;
    rewrite Hk; reflexivity.
Qed.

Lemma first_alternative_M : forall v, (0 <= v < 0 + Z.of_nat 60)%Z ->
  forall (k : Z -> string -> option R) rest r, k v rest = Some r ->
  first_alternative [[between "0" "5"; digit]; [digit]] (pad2 v +:+ rest) k = Some r.
Proof.
  by_range_cases 0%Z 60%nat; intros k rest r Hk; vm_compute in Hk |- *;
    rewrite Hk; reflexivity.
Qed.

Lemma first_alternative_S : forall v, (0 <= v < 0 + Z.of_nat 60)%Z ->
  forall (k : Z -> string -> option R) rest r, k v rest = Some r ->
  first_alternative
    [[exactly "6"; between "0" "1"]; [between "0" "5"; digit]; [digit]]
    (pad2 v +:+ rest) k = Some r.
Proof.
  by_range_cases 0%Z 60%nat; intros k rest r Hk; vm_compute in Hk |- *;
    rewrite Hk; reflexivity.
Qed.

Lemma first_alternative_Y (v : Z) (k : Z -> string -> option R) rest r :
  (0 <= v <= 9999)%Z -> k v rest = Some r ->
  first_alternative [[digit; digit; digit; digit]] (pad4 v +:+ rest) k = Some r.
Proof.
  intros Hv Hk.
  assert (H1 : (0 <= v / 1000 < 10)%Z) by (Z.to_euclidean_division_equations; lia).
  assert (H2 : (0 <= v / 100 mod 10 < 10)%Z) by (Z.to_euclidean_division_equations; lia).
  assert (H3 : (0 <= v / 10 mod 10 < 10)%Z) by (Z.to_euclidean_division_equations; lia).
  assert (H4 : (0 <= v mod 10 < 10)%Z) by (Z.to_euclidean_division_equations; lia).
  destruct (digit_char_spec _ H1) as (D1 & V1 & _).
  destruct (digit_char_spec _ H2) as (D2 & V2 & _).
  destruct (digit_char_spec _ H3) as (D3 & V3 & _).
  destruct (digit_char_spec _ H4) as (D4 & V4 & _).
  unfold pad4. cbv [String.append first_alternative match_seq digit].
  rewrite D1, D2, D3, D4, V1, V2, V3, V4.
  replace (10 * (10 * (10 * (10 * 0 + v / 1000) + v / 100 mod 10) + v / 10 mod 10)
           + v mod 10)%Z with v by (Z.to_euclidean_division_equations; lia).
  rewrite Hk. reflexivity.
Qed.

Lemma spaces_one_blank (k : string -> option R) (n : Z) rest r :
  (0 <= n < 10)%Z -> k (String (digit_char n) rest) = Some r ->
  spaces (String " " (String (digit_char n) rest)) k = Some r.
Proof.
  intros Hn Hk. destruct (digit_char_spec n Hn) as (_ & _ & Hsp & _).
  cbn [spaces]. rewrite Hsp.
  change (is_space " ") with true. cbn iota. assumption.
Qed.

End Directives.

Lemma valid_ranges t :
  valid t = true ->
  (1 <= year t <= 9999 /\ 1 <= month t <= 12 /\ 1 <= day t <= 31
   /\ 0 <= hour t <= 23 /\ 0 <= minute t <= 59 /\ 0 <= second t <= 59)%Z.
Proof.
  unfold valid, check_date_fields, check_time_fields.
  rewrite !andb_true_iff, !Z.leb_le.
  intros [[[[[[Hy1 Hy2] Hm1] Hm2] Hd1] Hd2] [[[[[[[HH1 HH2] HM1] HM2] HS1] HS2] _] _]].
  assert (Hdim : (days_in_month (year t) (month t) <= 31)%Z).
  { unfold days_in_month.
    destruct ((month t =? 2)%Z && is_leap (year t)); [lia |].
    assert (Hm : (1 <= month t < 1 + Z.of_nat 12)%Z) by lia.
    revert Hm. generalize (month t).
    by_range_cases 1%Z 12%nat; vm_compute; discriminate. }
  lia.
Qed.

Lemma strftime_log_format t :
  strftime t log_format
  = pad2 (day t) +:+ String "/" (pad2 (month t) +:+ String "/" (pad4 (year t)
      +:+ String " " (pad2 (hour t) +:+ String ":" (pad2 (minute t)
      +:+ String ":" (pad2 (second t) +:+ EmptyString))))).
Proof. reflexivity. Qed.

Lemma compile_log_format :
  compile log_format false
  = [RDir "d"; RLit "/"; RDir "m"; RLit "/"; RDir "Y"; RSpaces;
     RDir "H"; RLit ":"; RDir "M"; RLit ":"; RDir "S"].
Proof. reflexivity. Qed.

(** The timestamp that [update_log] writes is read back by [load_log]'s
    [strptime] as the same instant, to the second. *)
Lemma strptime_strftime t :
  valid t = true ->
  strptime (strftime t log_format) log_format = Ok (to_seconds t).
Proof.
  intros Hv. pose proof (valid_ranges t Hv) as (Hy & Hm & Hd & HH & HM & HS).
  unfold strptime. rewrite compile_log_format, strftime_log_format.
  assert (Hmatch :
    re_match [RDir "d"; RLit "/"; RDir "m"; RLit "/"; RDir "Y"; RSpaces;
              RDir "H"; RLit ":"; RDir "M"; RLit ":"; RDir "S"]
      (pad2 (day t) +:+ String "/" (pad2 (month t) +:+ String "/" (pad4 (year t)
        +:+ String " " (pad2 (hour t) +:+ String ":" (pad2 (minute t)
        +:+ String ":" (pad2 (second t) +:+ EmptyString))))))
      default_fields
    = Some (mk_fields (year t) (month t) (day t) (hour t) (minute t) (second t),
            EmptyString)).
  { cbn [re_match alternatives Ascii.eqb Bool.eqb].
    apply first_alternative_d; [lia |]. cbn [Ascii.eqb Bool.eqb].
    apply first_alternative_m; [lia |].
    apply first_alternative_Y; [lia |].
    assert (Hh : (0 <= hour t / 10 < 10)%Z)
      by (Z.to_euclidean_division_equations; lia).
    unfold pad2 at 1. cbn [String.append].
    apply spaces_one_blank; [exact Hh |].
    change (String (digit_char (hour t / 10))
              (String (digit_char (hour t mod 10))
                 (String ":" (pad2 (minute t) +:+ String ":" (pad2 (second t) +:+ "")))))
      with (pad2 (hour t) +:+
              String ":" (pad2 (minute t) +:+ String ":" (pad2 (second t) +:+ ""))).
    apply first_alternative_H; [lia |].
    apply first_alternative_M; [lia |].
    apply first_alternative_S; [lia |].
    reflexivity. }
  rewrite Hmatch. cbn [f_year f_month f_day f_hour f_minute f_second].
  unfold make, to_seconds. unfold valid in Hv.
  apply andb_true_iff in Hv as [Hdate Htime]. rewrite Hdate. simpl.
  unfold check_time_fields in *. rewrite !andb_true_iff in Htime.
  destruct Htime as [[[[[[[-> ->] ->] ->] ->] ->] _] _]. reflexivity.
Qed.

(** ** Splitting the record at its marker *)

Lemma rev_append_cons cur c s :
  Text.rev_append (String c cur) s = Text.rev_append cur (String c s).
Proof. reflexivity. Qed.

Lemma starts_with_app p s :
  starts_with p s = true <-> exists b, s = p +:+ b.
Proof.
  revert s. induction p as [| a p IH]; intros s; simpl.
  - split; [intros _; exists s; reflexivity | reflexivity].
  - destruct s as [| c s].
    + split; [discriminate | intros (b & Hb); discriminate].
    + rewrite andb_true_iff, IH. split.
      * intros (Hac & b & ->). apply Ascii.eqb_eq in Hac. subst. exists b. reflexivity.
      * intros (b & Hb). injection Hb as -> ->. split; [apply Ascii.eqb_refl | eauto].
Qed.

(** A text in which the separator does not occur is a single piece. *)
Lemma split_go_absent sep s cur :
  (forall a b, s <> a +:+ sep +:+ b) ->
  split_go sep s 0 cur = [Text.rev_append cur s].
Proof.
  revert cur. induction s as [| c s IH]; intros cur Habs; [reflexivity |].
  cbn [split_go].
  destruct (starts_with sep (String c s)) eqn:Hst.
  - apply starts_with_app in Hst as (b & Hb).
    exfalso. apply (Habs EmptyString b). exact Hb.
  - rewrite IH; [reflexivity |].
    intros a b Heq. apply (Habs (String c a) b). rewrite Heq. reflexivity.
Qed.

Lemma split_absent s sep :
  (forall a b, s <> a +:+ sep +:+ b) -> split s sep = [s].
Proof. intros H. unfold split. rewrite split_go_absent by assumption. reflexivity. Qed.

Lemma no_first_char_absent c0 p s :
  string_forall (fun c => negb (Ascii.eqb c0 c)) s = true ->
  forall a b, s <> a +:+ String c0 p +:+ b.
Proof.
  induction s as [| c s IH]; intros Hall a b Heq.
  - destruct a; discriminate.
  - simpl in Hall. apply andb_true_iff in Hall as [Hc Hs].
    destruct a as [| a0 a].
    + simpl in Heq. injection Heq as -> _. rewrite Ascii.eqb_refl in Hc. discriminate.
    + injection Heq as _ Heq. apply (IH Hs a b Heq).
Qed.

Lemma split_go_skip sep p s cur :
  split_go sep (p +:+ s) (String.length p) cur = split_go sep s 0 cur.
Proof.
  induction p as [| c p IH]; [| exact IH].
  destruct s; reflexivity.
Qed.

(** A text that starts with the separator and does not hold it again
    splits into the empty piece and the rest. *)
Lemma split_marker_first c0 p ts :
  (forall a b, ts <> a +:+ String c0 p +:+ b) ->
  split (String c0 p +:+ ts) (String c0 p) = [EmptyString; ts].
Proof.
  intros Habs. unfold split.
  change (String c0 p +:+ ts) with (String c0 (p +:+ ts)).
  cbn [split_go].
  assert (Hst : starts_with (String c0 p) (String c0 (p +:+ ts)) = true).
  { apply starts_with_app. exists ts. reflexivity. }
  rewrite Hst. cbn [Text.rev_append String.length].
  rewrite Nat.sub_succ, Nat.sub_0_r, split_go_skip.
  rewrite split_go_absent by assumption. reflexivity.
Qed.

Lemma strftime_no_marker t :
  valid t = true ->
  forall a b, strftime t log_format <> a +:+ log_marker +:+ b.
Proof.
  intros Hv. pose proof (valid_ranges t Hv) as (Hy & Hm & Hd & HH & HM & HS).
  apply no_first_char_absent.
  rewrite strftime_log_format. unfold pad2, pad4.
  cbv [String.append string_forall].
  repeat match goal with
         | |- context [Ascii.eqb "L" (digit_char ?n)] =>
             let H := fresh in
             assert (H : (0 <= n < 10)%Z)
               by (Z.to_euclidean_division_equations; lia);
             destruct (digit_char_spec n H) as (_ & _ & _ & ->); clear H
         end.
  reflexivity.
Qed.

Lemma load_log_run now w text :
  files w !! (save_path +:+ "log.txt") = Some (TextFile text) ->
  load_log now w
  = (rbind (subscript (split text log_marker) 1) (fun ts =>
     rbind (strptime ts log_format) (fun t =>
     Ok (timedelta_hours 1 <? sub now t)%Z)), w).
Proof.
  intros Hfile. unfold load_log. rewrite bind_run. unfold read_text. rewrite Hfile.
  rewrite bind_run. unfold lift. fold log_marker.
  destruct (subscript _ 1) as [ts | e]; [| reflexivity]. cbn [rbind].
  rewrite bind_run. fold log_format.
  destruct (strptime ts log_format) as [t | e]; [| reflexivity]. cbn [rbind].
  destruct (_ <? _)%Z; reflexivity.
Qed.

(** C2: after [update_log] has stamped the log at clock reading [t],
    [load_log] returns, and returns true exactly when the time elapsed
    between the stored timestamp ([t] to the second) and the reading [now]
    is strictly more than one hour: false at exactly one hour and at one
    hour less one second, true at one hour and one second. *)
Theorem load_log_stale_after_one_hour (t now : datetime) (w : World) :
  valid t = true ->
  let w1 := snd (update_log t w) in
  let elapsed := sub now (to_seconds t) in
  load_log now w1 = (Ok (timedelta_hours 1 <? elapsed)%Z, w1)
  /\ (fst (load_log now w1) = Ok true <-> (timedelta_hours 1 < elapsed)%Z)
  /\ (elapsed = timedelta_of 0 3600 0 -> fst (load_log now w1) = Ok false)
  /\ (elapsed = timedelta_of 0 3599 0 -> fst (load_log now w1) = Ok false)
  /\ (elapsed = timedelta_of 0 3601 0 -> fst (load_log now w1) = Ok true).
Proof.
  intros Hv w1 elapsed.
  assert (Hrun : load_log now w1 = (Ok (timedelta_hours 1 <? elapsed)%Z, w1)).
  { subst w1. rewrite update_log_run. cbn [snd].
    rewrite (load_log_run now _ (log_marker +:+ strftime t log_format)).
    2:{ cbn [files]. apply lookup_insert_eq. }
    unfold log_marker at 1 2.
    rewrite split_marker_first by (apply strftime_no_marker; assumption).
    cbn [subscript nth_error rbind].
    rewrite strptime_strftime by assumption. reflexivity. }
  split; [exact Hrun |]. rewrite Hrun. cbn [fst].
  split.
  - rewrite <- Z.ltb_lt. split; [intros [= ->]; reflexivity | intros ->; reflexivity].
  - repeat split; intros ->; reflexivity.
Qed.

(** ** Inner joins *)

Lemma cell_eqb_eq a b : cell_eqb a b = true <-> a = b.
Proof.
  destruct a as [x |], b as [y |]; simpl; try (split; congruence).
  rewrite String.eqb_eq. split; congruence.
Qed.

Lemma join_rows_cons li ri l L R :
  join_rows li ri (l :: L) R
  = map (fun r => l ++ r)
        (List.filter (fun r => cell_eqb (get li l) (get ri r)) R)
    ++ join_rows li ri L R.
Proof. reflexivity. Qed.

Lemma join_rows_nil_r li ri L : join_rows li ri L [] = [].
Proof. induction L as [| l L IH]; [reflexivity |]. rewrite join_rows_cons, IH. reflexivity. Qed.

Lemma in_join_rows li ri L R x :
  In x (join_rows li ri L R)
  <-> exists l r, In l L /\ In r R /\ get li l = get ri r /\ x = l ++ r.
Proof.
  unfold join_rows. rewrite in_flat_map. split.
  - intros (l & Hl & Hx). apply in_map_iff in Hx as (r & <- & Hr).
    apply filter_In in Hr as [Hr Heq]. apply cell_eqb_eq in Heq.
    exists l, r. auto.
  - intros (l & r & Hl & Hr & Heq & ->). exists l. split; [assumption |].
    apply in_map_iff. exists r. split; [reflexivity |].
    apply filter_In. split; [assumption | apply cell_eqb_eq; assumption].
Qed.

(** With distinct keys on the right, a key finds at most one row. *)
Lemma matches_at_most_one ri R k :
  List.NoDup (map (get ri) R) ->
  (length (List.filter (fun r => cell_eqb k (get ri r)) R) <= 1)%nat.
Proof.
  induction R as [| r R IH]; intros Hnd; simpl; [lia |].
  inversion Hnd as [| ? ? Hnotin Hnd' ]; subst.
  destruct (cell_eqb k (get ri r)) eqn:Heq; [| apply IH; assumption].
  apply cell_eqb_eq in Heq. subst k.
  assert (Hnone : List.filter (fun r0 => cell_eqb (get ri r) (get ri r0)) R = []).
  { destruct (List.filter _ R) as [| r' rest] eqn:Hf; [reflexivity |].
    assert (Hin : In r' (List.filter (fun r0 => cell_eqb (get ri r) (get ri r0)) R))
      by (rewrite Hf; left; reflexivity).
    apply filter_In in Hin as [Hin Hk]. apply cell_eqb_eq in Hk.
    exfalso. apply Hnotin. rewrite Hk. apply in_map. assumption. }
  rewrite Hnone. simpl. lia.
Qed.

Lemma matches_nonempty ri R k :
  (0 < length (List.filter (fun r => cell_eqb k (get ri r)) R))%nat
  <-> exists r, In r R /\ get ri r = k.
Proof.
  split.
  - destruct (List.filter _ R) as [| r rest] eqn:Hf; simpl; [lia |]. intros _.
    assert (Hin : In r (List.filter (fun r => cell_eqb k (get ri r)) R))
      by (rewrite Hf; left; reflexivity).
    apply filter_In in Hin as [Hin Hk]. apply cell_eqb_eq in Hk. eauto.
  - intros (r & Hin & Hk).
    assert (Hf : In r (List.filter (fun r => cell_eqb k (get ri r)) R)).
    { apply filter_In. split; [assumption |]. apply cell_eqb_eq. auto. }
    destruct (List.filter _ R); [contradiction | simpl; lia].
Qed.

(** An inner join on a key that is unique on the right has at most as
    many rows as the left side, and as many exactly when every left key
    is present on the right. *)
Lemma join_rows_length li ri L R :
  List.NoDup (map (get ri) R) ->
  (length (join_rows li ri L R) <= length L)%nat
  /\ (length (join_rows li ri L R) = length L
      <-> forall l, In l L -> exists r, In r R /\ get ri r = get li l).
Proof.
  intros Hnd. induction L as [| l L [IHle IHeq]].
  - simpl. split; [lia |]. split; [intros _ l [] | reflexivity].
  - rewrite join_rows_cons, length_app, length_map.
    pose proof (matches_at_most_one ri R (get li l) Hnd) as Hone.
    pose proof (matches_nonempty ri R (get li l)) as Hex.
    change (length (l :: L)) with (S (length L)). unfold row in *.
    split; [lia |]. split.
    + intros Hlen l' [<- | Hin].
      * apply Hex. lia.
      * apply IHeq; [lia | assumption].
    + intros Hall.
      assert (H1 : (0 < length (List.filter
                                  (fun r => cell_eqb (get li l) (get ri r)) R))%nat).
      { apply Hex. apply Hall. left. reflexivity. }
      assert (H2 : length (join_rows li ri L R) = length L).
      { apply IHeq. intros l' Hin. apply Hall. right. assumption. }
      unfold row in *. lia.
Qed.

Lemma NoDup_map_injective {A B : Type} (f : A -> B) (l : list A) (a b : A) :
  List.NoDup (map f l) -> In a l -> In b l -> f a = f b -> a = b.
Proof.
  induction l as [| x l IH]; simpl; intros Hnd Ha Hb Hf; [contradiction |].
  inversion Hnd as [| ? ? Hnotin Hnd']; subst.
  destruct Ha as [-> | Ha], Hb as [-> | Hb]; auto.
  - exfalso. apply Hnotin. rewrite Hf. apply in_map. assumption.
  - exfalso. apply Hnotin. rewrite <- Hf. apply in_map. assumption.
Qed.

(** ** The Joiner on tables with the declared columns *)

Lemma aggregate_schema I C P G :
  columns I = interactions_columns -> columns C = customers_columns ->
  columns P = products_columns -> columns G = categories_columns ->
  aggregate I C P G
  = Ok (mk_frame aggregated_columns
                 (aggregated_rows (rows I) (rows C) (rows P) (rows G))).
Proof.
  destruct I as [cI rI], C as [cC rC], P as [cP rP], G as [cG rG].
  cbn [columns rows]. intros -> -> -> ->. reflexivity.
Qed.

Lemma row_of_four (r : row) :
  length r = 4%nat -> exists a b c d, r = [a; b; c; d].
Proof.
  destruct r as [| a [| b [| c [| d [| e r]]]]]; simpl; intros H; try discriminate.
  eauto.
Qed.

Lemma row_of_five (r : row) :
  length r = 5%nat -> exists a b c d e, r = [a; b; c; d; e].
Proof.
  destruct r as [| a [| b [| c [| d [| e [| f r]]]]]]; simpl; intros H;
    try discriminate.
  eauto 6.
Qed.

(** What the first join leaves after [_id_y] is dropped: an interaction
    row followed by the cells of its customer other than the identifier. *)
Lemma in_joined_customers I C x :
  List.Forall (fun r => length r = 4%nat) I ->
  List.Forall (fun r => length r = 5%nat) C ->
  In x (map (select [true; true; true; true; false; true; true; true; true])
            (join_rows 1 0 I C))
  <-> exists i c, In i I /\ In c C /\ get 1 i = get 0 c /\ x = i ++ tl c.
Proof.
  intros HI HC. rewrite List.Forall_forall in HI, HC.
  rewrite in_map_iff. split.
  - intros (y & <- & Hy). apply in_join_rows in Hy as (i & c & Hi & Hc & Hk & ->).
    exists i, c. repeat split; try assumption.
    destruct (row_of_four i (HI i Hi)) as (a0 & a1 & a2 & a3 & ->).
    destruct (row_of_five c (HC c Hc)) as (b0 & b1 & b2 & b3 & b4 & ->).
    reflexivity.
  - intros (i & c & Hi & Hc & Hk & ->). exists (i ++ c). split.
    + destruct (row_of_four i (HI i Hi)) as (a0 & a1 & a2 & a3 & ->).
      destruct (row_of_five c (HC c Hc)) as (b0 & b1 & b2 & b3 & b4 & ->).
      reflexivity.
    + apply in_join_rows. exists i, c. auto.
Qed.

Lemma joined_customer_cells i c p g :
  length i = 4%nat -> length c = 5%nat ->
  get 2 (i ++ tl c) = get 2 i
  /\ get 13 ((i ++ tl c) ++ p) = get 5 p
  /\ firstn 4 (((i ++ tl c) ++ p) ++ g) = i.
Proof.
  intros Hi Hc.
  destruct (row_of_four i Hi) as (a0 & a1 & a2 & a3 & ->).
  destruct (row_of_five c Hc) as (b0 & b1 & b2 & b3 & b4 & ->).
  repeat split.
Qed.

Lemma in_aggregated_rows I C P G r :
  List.Forall (fun r => length r = 4%nat) I ->
  List.Forall (fun r => length r = 5%nat) C ->
  In r (aggregated_rows I C P G)
  <-> exists i c p g,
        In i I /\ In c C /\ In p P /\ In g G
        /\ get 1 i = get 0 c /\ get 2 i = get 0 p /\ get 5 p = get 0 g
        /\ r = ((i ++ tl c) ++ p) ++ g.
Proof.
  intros HI HC. unfold aggregated_rows. rewrite in_join_rows. split.
  - intros (y & g & Hy & Hg & Hk3 & ->).
    apply in_join_rows in Hy as (x & p & Hx & Hp & Hk2 & ->).
    apply (in_joined_customers I C x HI HC) in Hx as (i & c & Hi & Hc & Hk1 & ->).
    rewrite List.Forall_forall in HI, HC.
    destruct (joined_customer_cells i c p g (HI i Hi) (HC c Hc)) as (E2 & E13 & _).
    exists i, c, p, g. rewrite <- E2, <- E13. auto 10.
  - intros (i & c & p & g & Hi & Hc & Hp & Hg & Hk1 & Hk2 & Hk3 & ->).
    pose proof HI as HI'. pose proof HC as HC'.
    rewrite List.Forall_forall in HI', HC'.
    destruct (joined_customer_cells i c p g (HI' i Hi) (HC' c Hc)) as (E2 & E13 & _).
    exists ((i ++ tl c) ++ p), g. repeat split; try assumption.
    + apply in_join_rows. exists (i ++ tl c), p. repeat split; try assumption.
      * apply (in_joined_customers I C _ HI HC). exists i, c. auto.
      * rewrite E2. assumption.
    + rewrite E13. assumption.
Qed.

Lemma resolves_cells C P G i :
  resolves C P G i
  <-> (exists c, In c (rows C) /\ get 0 c = get 1 i)
      /\ (exists p, In p (rows P) /\ get 0 p = get 2 i
                    /\ exists g, In g (rows G) /\ get 0 g = get 5 p).
Proof. reflexivity. Qed.

(** The row count of the joined frame, on the frames themselves. *)
Lemma aggregate_row_count_frames (I C P G : DataFrame) :
  columns I = interactions_columns -> columns C = customers_columns ->
  columns P = products_columns -> columns G = categories_columns ->
  frame_ok I -> frame_ok C ->
  unique_id C -> unique_id P -> unique_id G ->
  exists agg,
    aggregate I C P G = Ok agg
    /\ (len agg <= len I)%nat
    /\ (len agg = len I <-> forall i, In i (rows I) -> resolves C P G i)
    /\ (forall r, In r (rows agg) ->
          In (firstn 4 r) (rows I) /\ resolves C P G (firstn 4 r))
    /\ (forall i, In i (rows I) -> resolves C P G i ->
          exists r, In r (rows agg) /\ firstn 4 r = i)
    /\ (forall i, In i (rows I) ->
          (forall p, In p (rows P) ->
             field products_columns "_id" p
             <> field interactions_columns "productId" i) ->
          forall r, In r (rows agg) -> firstn 4 r <> i).
Proof.
  intros HcI HcC HcP HcG HI HC NC NP NG.
  exists (mk_frame aggregated_columns
                   (aggregated_rows (rows I) (rows C) (rows P) (rows G))).
  split; [apply aggregate_schema; assumption |].
  unfold frame_ok in HI, HC. rewrite HcI in HI. rewrite HcC in HC.
  change (length interactions_columns) with 4%nat in HI.
  change (length customers_columns) with 5%nat in HC.
  unfold unique_id in NC, NP, NG. rewrite HcC in NC. rewrite HcP in NP.
  rewrite HcG in NG.
  change (field customers_columns "_id") with (get 0) in NC.
  change (field products_columns "_id") with (get 0) in NP.
  change (field categories_columns "_id") with (get 0) in NG.
  unfold len. cbn [rows].
  set (rI := rows I) in *. set (rC := rows C) in *.
  set (rP := rows P) in *. set (rG := rows G) in *.
  pose proof HI as HI'. pose proof HC as HC'.
  rewrite List.Forall_forall in HI', HC'.
  (* membership in the table *)
  assert (Hin : forall r, In r (aggregated_rows rI rC rP rG) ->
                  In (firstn 4 r) rI /\ resolves C P G (firstn 4 r)).
  { intros r Hr.
    apply (in_aggregated_rows rI rC rP rG r HI HC) in Hr
      as (i & c & p & g & Hi & Hc & Hp & Hg & Hk1 & Hk2 & Hk3 & ->).
    destruct (joined_customer_cells i c p g (HI' i Hi) (HC' c Hc)) as (_ & _ & ->).
    split; [assumption |]. apply resolves_cells. split.
    - exists c. auto.
    - exists p. repeat split; auto. exists g. auto. }
  assert (Hhas : forall i, In i rI -> resolves C P G i ->
                   exists r, In r (aggregated_rows rI rC rP rG) /\ firstn 4 r = i).
  { intros i Hi Hres. apply (proj1 (resolves_cells C P G _)) in Hres
      as ((c & Hc & Hk1) & (p & Hp & Hk2 & g & Hg & Hk3)).
    exists (((i ++ tl c) ++ p) ++ g). split.
    - apply (in_aggregated_rows rI rC rP rG _ HI HC). exists i, c, p, g. auto 10.
    - apply (joined_customer_cells i c p g (HI' i Hi) (HC' c Hc)). }
  (* counting *)
  set (mask := [true; true; true; true; false; true; true; true; true]).
  set (rows1 := map (select mask) (join_rows 1 0 rI rC)).
  set (rows2 := join_rows 2 0 rows1 rP).
  destruct (join_rows_length 1 0 rI rC NC) as [L1 Q1].
  destruct (join_rows_length 2 0 rows1 rP NP) as [L2 Q2].
  destruct (join_rows_length 13 0 rows2 rG NG) as [L3 Q3].
  assert (Hlen1 : length rows1 = length (join_rows 1 0 rI rC))
    by apply length_map.
  fold rows2 in L2, Q2.
  change (aggregated_rows rI rC rP rG) with (join_rows 13 0 rows2 rG) in *.
  unfold row in *.
  split; [lia |]. split; [| split; [exact Hin | split; [exact Hhas |]]].
  - split.
    + intros Hlen.
      assert (A1 : forall l, In l rI -> exists r, In r rC /\ get 0 r = get 1 l)
        by (apply Q1; lia).
      assert (A2 : forall l, In l rows1 -> exists r, In r rP /\ get 0 r = get 2 l)
        by (apply Q2; lia).
      assert (A3 : forall l, In l rows2 -> exists r, In r rG /\ get 0 r = get 13 l)
        by (apply Q3; lia).
      intros i Hi. apply resolves_cells.
      destruct (A1 i Hi) as (c & Hc & Hk1).
      assert (Hx : In (i ++ tl c) rows1).
      { apply (in_joined_customers rI rC _ HI HC). exists i, c. auto. }
      destruct (joined_customer_cells i c [] [] (HI' i Hi) (HC' c Hc)) as (E2 & _).
      destruct (A2 _ Hx) as (p & Hp & Hk2). rewrite E2 in Hk2.
      assert (Hy : In ((i ++ tl c) ++ p) rows2).
      { apply in_join_rows. exists (i ++ tl c), p. rewrite E2. auto. }
      destruct (joined_customer_cells i c p [] (HI' i Hi) (HC' c Hc)) as (_ & E13 & _).
      destruct (A3 _ Hy) as (g & Hg & Hk3). rewrite E13 in Hk3.
      split; [exists c; auto |]. exists p. repeat split; auto. exists g. auto.
    + intros Hall.
      assert (A1 : forall l, In l rI -> exists r, In r rC /\ get 0 r = get 1 l).
      { intros i Hi. apply (Hall i) in Hi. apply (proj1 (resolves_cells C P G _)) in Hi as [Hc _].
        exact Hc. }
      assert (A2 : forall l, In l rows1 -> exists r, In r rP /\ get 0 r = get 2 l).
      { intros x Hx.
        apply (in_joined_customers rI rC x HI HC) in Hx as (i & c & Hi & Hc & Hk1 & ->).
        destruct (joined_customer_cells i c [] [] (HI' i Hi) (HC' c Hc)) as (-> & _).
        apply (Hall i) in Hi. apply (proj1 (resolves_cells C P G _)) in Hi as (_ & p & Hp & Hk2 & _).
        exists p. auto. }
      assert (A3 : forall l, In l rows2 -> exists r, In r rG /\ get 0 r = get 13 l).
      { intros y Hy. apply in_join_rows in Hy as (x & p' & Hx & Hp' & Hk2' & ->).
        apply (in_joined_customers rI rC x HI HC) in Hx as (i & c & Hi & Hc & Hk1 & ->).
        destruct (joined_customer_cells i c p' [] (HI' i Hi) (HC' c Hc))
          as (E2 & -> & _).
        rewrite E2 in Hk2'.
        apply (Hall i) in Hi.
        apply (proj1 (resolves_cells C P G _)) in Hi as (_ & p & Hp & Hk2 & g & Hg & Hk3).
        assert (p = p') as <-.
        { apply (NoDup_map_injective (get 0) rP p p' NP Hp Hp'). congruence. }
        exists g. auto. }
      apply Q1 in A1. apply Q2 in A2. apply Q3 in A3. lia.
  - intros i Hi Hnone r Hr Heq.
    destruct (Hin r Hr) as [_ Hres]. rewrite Heq in Hres.
    apply (proj1 (resolves_cells C P G _)) in Hres as (_ & p & Hp & Hk2 & _).
    apply (Hnone p Hp). exact Hk2.
Qed.

Lemma aggregate_data_run w I C P G :
  files w !! (save_path +:+ "interactions.csv") = Some (CsvFile I) ->
  files w !! (save_path +:+ "customers.csv") = Some (CsvFile C) ->
  files w !! (save_path +:+ "products.csv") = Some (CsvFile P) ->
  files w !! (save_path +:+ "prodoutCategory.csv") = Some (CsvFile G) ->
  columns I <> [] -> columns C <> [] -> columns P <> [] -> columns G <> [] ->
  aggregate_data w
  = match aggregate I C P G with
    | Ok agg =>
        (Ok tt, mk_world (<[save_path +:+ "aggregated.csv" := CsvFile agg]> (files w))
                         (engine_calls w))
    | Raise e => (Raise e, w)
    end.
Proof.
  intros FI FC FP FG NI NC NP NG. unfold aggregate_data.
  rewrite bind_run, (read_csv_run _ _ _ FI).
  destruct (columns I) as [| ? ?] eqn:EI; [contradiction |].
  rewrite bind_run, (read_csv_run _ _ _ FC).
  destruct (columns C) as [| ? ?] eqn:EC; [contradiction |].
  rewrite bind_run, (read_csv_run _ _ _ FP).
  destruct (columns P) as [| ? ?] eqn:EP; [contradiction |].
  rewrite bind_run, (read_csv_run _ _ _ FG).
  destruct (columns G) as [| ? ?] eqn:EG; [contradiction |].
  rewrite bind_run. unfold lift.
  destruct (aggregate I C P G); reflexivity.
Qed.

(** C4: when the four stored raw tables have the declared columns, one
    cell per column, and identifiers that are unique in Customer, Product
    and ProductCategory, [aggregate_data] completes and the table it
    stores in [aggregated.csv] has at most as many rows as Interaction,
    and as many exactly when the customer, the product and the product's
    category of every interaction exist.  Every row of the stored table
    starts with an interaction whose keys all resolve, every such
    interaction has a row, and an interaction whose product id names no
    product has none. *)
Theorem aggregate_row_count (w : World) (I C P G : DataFrame) :
  files w !! (save_path +:+ "interactions.csv") = Some (CsvFile I) ->
  files w !! (save_path +:+ "customers.csv") = Some (CsvFile C) ->
  files w !! (save_path +:+ "products.csv") = Some (CsvFile P) ->
  files w !! (save_path +:+ "prodoutCategory.csv") = Some (CsvFile G) ->
  columns I = interactions_columns -> columns C = customers_columns ->
  columns P = products_columns -> columns G = categories_columns ->
  frame_ok I -> frame_ok C ->
  unique_id C -> unique_id P -> unique_id G ->
  exists agg,
    aggregate_data w
    = (Ok tt, mk_world (<[save_path +:+ "aggregated.csv" := CsvFile agg]> (files w))
                       (engine_calls w))
    /\ files (snd (aggregate_data w)) !! (save_path +:+ "aggregated.csv")
       = Some (CsvFile agg)
    /\ (len agg <= len I)%nat
    /\ (len agg = len I <-> forall i, In i (rows I) -> resolves C P G i)
    /\ (forall r, In r (rows agg) ->
          In (firstn 4 r) (rows I) /\ resolves C P G (firstn 4 r))
    /\ (forall i, In i (rows I) -> resolves C P G i ->
          exists r, In r (rows agg) /\ firstn 4 r = i)
    /\ (forall i, In i (rows I) ->
          (forall p, In p (rows P) ->
             field products_columns "_id" p
             <> field interactions_columns "productId" i) ->
          forall r, In r (rows agg) -> firstn 4 r <> i).
Proof.
  intros FI FC FP FG HcI HcC HcP HcG HI HC NC NP NG.
  destruct (aggregate_row_count_frames I C P G HcI HcC HcP HcG HI HC NC NP NG)
    as (agg & Hagg & Hrest).
  exists agg.
  assert (Hrun : aggregate_data w
                 = (Ok tt,
                    mk_world (<[save_path +:+ "aggregated.csv" := CsvFile agg]> (files w))
                             (engine_calls w))).
  { rewrite (aggregate_data_run w I C P G FI FC FP FG), Hagg; try reflexivity.
    - rewrite HcI. discriminate.
    - rewrite HcC. discriminate.
    - rewrite HcP. discriminate.
    - rewrite HcG. discriminate. }
  split; [exact Hrun |].
  split; [rewrite Hrun; cbn [snd files]; apply lookup_insert_eq |].
  exact Hrest.
Qed.

Lemma row_of_seven (r : row) :
  length r = 7%nat -> exists a b c d e f g, r = [a; b; c; d; e; f; g].
Proof.
  destruct r as [| a [| b [| c [| d [| e [| f [| g [| h r]]]]]]]]; simpl;
    intros H; try discriminate.
  eauto 8.
Qed.

(** C3, as the code has it: only the first join (Interaction with
    Customer) keeps the left identifier under the base name [_id] and
    drops the right one.  The second join leaves both identifiers in the
    table, as [_id_x] (the interaction's) and [_id_y] (the product's); the
    third, whose left side has no [_id] left, adds the category's
    identifier as [_id].  The stored table carries these three identifier
    columns. *)
Theorem aggregate_identifier_columns (I C P G : DataFrame) :
  columns I = interactions_columns -> columns C = customers_columns ->
  columns P = products_columns -> columns G = categories_columns ->
  frame_ok I -> frame_ok C -> frame_ok P ->
  exists df1 df2 agg,
    join_customers I C = Ok df1
    /\ keeps_left_drops_right I C df1
    /\ (forall r, In r (rows df1) ->
          exists i, In i (rows I)
                    /\ field (columns df1) "_id" r = field interactions_columns "_id" i)
    /\ join_products df1 P = Ok df2
    /\ identifier_columns df2 = ["_id_x"; "_id_y"]
    /\ join_categories df2 G = Ok agg
    /\ identifier_columns agg = ["_id_x"; "_id_y"; "_id"]
    /\ aggregate I C P G = Ok agg
    /\ columns agg = aggregated_columns
    /\ (forall r, In r (rows agg) ->
          exists i p g,
            In i (rows I) /\ In p (rows P) /\ In g (rows G)
            /\ field aggregated_columns "_id_x" r = field interactions_columns "_id" i
            /\ field aggregated_columns "_id_y" r = field products_columns "_id" p
            /\ field aggregated_columns "_id" r = field categories_columns "_id" g).
Proof.
  destruct I as [cI rI], C as [cC rC], P as [cP rP], G as [cG rG].
  unfold frame_ok. cbn [columns rows]. intros -> -> -> -> HI HC HP.
  change (length interactions_columns) with 4%nat in HI.
  change (length customers_columns) with 5%nat in HC.
  change (length products_columns) with 7%nat in HP.
  set (mask := [true; true; true; true; false; true; true; true; true]).
  exists (mk_frame (interactions_columns ++ tl customers_columns)
                   (map (select mask) (join_rows 1 0 rI rC))).
  exists (mk_frame (firstn 15 aggregated_columns)
                   (join_rows 2 0 (map (select mask) (join_rows 1 0 rI rC)) rP)).
  exists (mk_frame aggregated_columns (aggregated_rows rI rC rP rG)).
  split; [reflexivity |].
  split.
  { intros c Hl Hr. cbn [columns] in *.
    assert (c = "_id") as ->.
    { simpl in Hl, Hr. intuition (subst; try discriminate; reflexivity). }
    vm_compute. repeat split; try reflexivity; intuition discriminate. }
  split.
  { intros r Hr. cbn [rows columns] in *.
    apply (in_joined_customers rI rC r HI HC) in Hr as (i & c & Hi & Hc & _ & ->).
    exists i. split; [assumption |].
    rewrite List.Forall_forall in HI.
    destruct (row_of_four i (HI i Hi)) as (a0 & a1 & a2 & a3 & ->). reflexivity. }
  do 6 (split; [reflexivity |]).
  intros r Hr. cbn [rows] in Hr.
  apply (in_aggregated_rows rI rC rP rG r HI HC) in Hr
    as (i & c & p & g & Hi & Hc & Hp & Hg & _ & _ & _ & ->).
  exists i, p, g. do 3 (split; [assumption |]).
  rewrite List.Forall_forall in HI, HC, HP.
  destruct (row_of_four i (HI i Hi)) as (a0 & a1 & a2 & a3 & ->).
  destruct (row_of_five c (HC c Hc)) as (b0 & b1 & b2 & b3 & b4 & ->).
  destruct (row_of_seven p (HP p Hp)) as (p0 & p1 & p2 & p3 & p4 & p5 & p6 & ->).
  repeat split.
Qed.

(** C3 fails as stated: on the sample, both sides of the second join carry
    [_id], and its output has neither a single [_id] nor dropped the right
    occurrence; the stored table has three identifier columns, and the one
    called [_id] holds the category's identifiers. *)
Lemma products_join_keeps_both_identifiers :
  join_customers I0 C0 = Ok joined1
  /\ join_products joined1 P0 = Ok joined2
  /\ In "_id" (columns joined1) /\ In "_id" (columns P0)
  /\ ~ keeps_left_drops_right joined1 P0 joined2
  /\ In "_id_y" (columns joined2)
  /\ aggregate I0 C0 P0 G0 = Ok joined3
  /\ identifier_columns joined3 = ["_id_x"; "_id_y"; "_id"]
  /\ column joined3 "_id" = Some [Some "g1"; Some "g1"; Some "g1"; Some "g1"]
  /\ column joined3 "_id_x" = Some [Some "i1"; Some "i2"; Some "i4"; Some "i5"].
Proof.
  split; [reflexivity |]. split; [reflexivity |].
  assert (Hl : In "_id" (columns joined1)) by (vm_compute; tauto).
  assert (Hr : In "_id" (columns P0)) by (vm_compute; tauto).
  split; [exact Hl |]. split; [exact Hr |].
  split.
  { intros H. destruct (H "_id" Hl Hr) as (Hcount & _).
    vm_compute in Hcount. discriminate. }
  split; [vm_compute; tauto |].
  repeat split.
Qed.

(** ** The pipeline on the saved raw tables *)

Ltac path_ne :=
  let H := fresh in intros H; vm_compute in H; discriminate H.

Lemma saved_lookup I C P G w :
  files (saved I C P G w) !! (save_path +:+ "interactions.csv") = Some (CsvFile I)
  /\ files (saved I C P G w) !! (save_path +:+ "customers.csv") = Some (CsvFile C)
  /\ files (saved I C P G w) !! (save_path +:+ "products.csv") = Some (CsvFile P)
  /\ files (saved I C P G w) !! (save_path +:+ "prodoutCategory.csv")
     = Some (CsvFile G).
Proof.
  unfold saved. cbn [files]. repeat split.
  - rewrite !lookup_insert_ne by path_ne. apply lookup_insert_eq.
  - rewrite !lookup_insert_ne by path_ne. apply lookup_insert_eq.
  - rewrite lookup_insert_ne by path_ne. apply lookup_insert_eq.
  - apply lookup_insert_eq.
Qed.

Lemma saved_other I C P G w name :
  In name ["aggregated.csv"; "processed.csv"; "pre_processed.csv"; "log.txt"] ->
  files (saved I C P G w) !! (save_path +:+ name) = files w !! (save_path +:+ name).
Proof.
  intros Hin. unfold saved. cbn [files]. simpl in Hin.
  destruct Hin as [<- | [<- | [<- | [<- | []]]]];
    rewrite !lookup_insert_ne by path_ne; reflexivity.
Qed.

Lemma read_csv_has_columns path w df :
  files w !! path = Some (CsvFile df) ->
  read_csv path w = (if has_columns df then Ok df else Raise EmptyDataError, w).
Proof.
  intros H. rewrite (read_csv_run _ _ _ H). unfold has_columns.
  destruct (columns df); reflexivity.
Qed.

Lemma aggregate_data_saved I C P G w :
  aggregate_data (saved I C P G w)
  = if has_columns I && has_columns C && has_columns P && has_columns G
    then match aggregate I C P G with
         | Ok agg =>
             (Ok tt, mk_world (<[save_path +:+ "aggregated.csv" := CsvFile agg]>
                                 (files (saved I C P G w)))
                              (engine_calls w))
         | Raise e => (Raise e, saved I C P G w)
         end
    else (Raise EmptyDataError, saved I C P G w).
Proof.
  destruct (saved_lookup I C P G w) as (HI & HC & HP & HG).
  unfold aggregate_data.
  rewrite bind_run, (read_csv_has_columns _ _ _ HI).
  destruct (has_columns I); [| reflexivity].
  rewrite bind_run, (read_csv_has_columns _ _ _ HC).
  destruct (has_columns C); [| reflexivity].
  rewrite bind_run, (read_csv_has_columns _ _ _ HP).
  destruct (has_columns P); [| reflexivity].
  rewrite bind_run, (read_csv_has_columns _ _ _ HG).
  destruct (has_columns G); [| reflexivity].
  rewrite bind_run. unfold lift.
  destruct (aggregate I C P G); reflexivity.
Qed.

Lemma refresh_saved db now w docsI docsC docsP docsG :
  db "interactions" = Ok docsI -> db "customers" = Ok docsC ->
  db "products" = Ok docsP -> db "prodoutCategory" = Ok docsG ->
  refresh db now w
  = (aggregate_data;; process_data;; pre_process;; update_log now)
      (saved (from_records (firstn (Z.to_nat data_length) docsI))
             (from_records (firstn (Z.to_nat data_length) docsC))
             (from_records (firstn (Z.to_nat data_length) docsP))
             (from_records (firstn (Z.to_nat data_length) docsG)) w).
Proof.
  intros HI HC HP HG. unfold refresh.
  rewrite bind_run. unfold find_to_list at 1. unfold lift. rewrite HI. cbn [rbind].
  rewrite bind_run. unfold find_to_list at 1. unfold lift. rewrite HC. cbn [rbind].
  rewrite bind_run. unfold find_to_list at 1. unfold lift. rewrite HP. cbn [rbind].
  rewrite bind_run. unfold find_to_list at 1. unfold lift. rewrite HG. cbn [rbind].
  reflexivity.
Qed.

Lemma aggregated_rows_empty I C P G :
  I = [] \/ C = [] \/ P = [] \/ G = [] -> aggregated_rows I C P G = [].
Proof.
  unfold aggregated_rows. intros [-> | [-> | [-> | ->]]].
  - reflexivity.
  - rewrite join_rows_nil_r. reflexivity.
  - rewrite join_rows_nil_r. reflexivity.
  - apply join_rows_nil_r.
Qed.

(** C9, as the code has it: when the store answers one of the four
    queries with zero records, the run fails.  The table saved for that
    collection has no columns, [aggregate_data] raises [EmptyDataError]
    on reading it back, and neither the aggregated, the processed, the
    pre-processed table nor the Freshness Log is written.  From the Joiner
    on, a table that has its columns and zero rows is no error: the join
    of raw tables one of which has no rows, the projection of a table
    without rows and the cleaning of a table without rows all complete
    with zero rows. *)
Theorem empty_collection_fails_run (db : Store) (now : datetime) (w : World)
    (docsI docsC docsP docsG : list Doc) :
  db "interactions" = Ok docsI -> db "customers" = Ok docsC ->
  db "products" = Ok docsP -> db "prodoutCategory" = Ok docsG ->
  docsI = [] \/ docsC = [] \/ docsP = [] \/ docsG = [] ->
  (fst (refresh db now w) = Raise EmptyDataError
   /\ forall name,
        In name ["aggregated.csv"; "processed.csv"; "pre_processed.csv"; "log.txt"] ->
        files (snd (refresh db now w)) !! (save_path +:+ name)
        = files w !! (save_path +:+ name))
  /\ (forall I C P G,
        columns I = interactions_columns -> columns C = customers_columns ->
        columns P = products_columns -> columns G = categories_columns ->
        rows I = [] \/ rows C = [] \/ rows P = [] \/ rows G = [] ->
        aggregate I C P G = Ok (mk_frame aggregated_columns []))
  /\ (forall df out,
        drop df process_drop_list = Ok out -> rows df = [] -> rows out = [])
  /\ (forall w' df,
        files w' !! (save_path +:+ "processed.csv") = Some (CsvFile df) ->
        columns df <> [] -> rows df = [] ->
        exists out,
          pre_process w'
          = (Ok tt,
             mk_world (<[save_path +:+ "pre_processed.csv" := CsvFile out]> (files w'))
                      (engine_calls w'))
          /\ rows out = []).
Proof.
  intros HI HC HP HG Hempty. split; [| split; [| split]].
  - rewrite (refresh_saved db now w _ _ _ _ HI HC HP HG).
    rewrite bind_run, aggregate_data_saved.
    assert (Hcols : has_columns (from_records (firstn (Z.to_nat data_length) docsI))
                    && has_columns (from_records (firstn (Z.to_nat data_length) docsC))
                    && has_columns (from_records (firstn (Z.to_nat data_length) docsP))
                    && has_columns (from_records (firstn (Z.to_nat data_length) docsG))
                    = false).
    { assert (Hnil : has_columns (from_records (firstn (Z.to_nat data_length) []))
                     = false).
      { rewrite firstn_nil. reflexivity. }
      destruct Hempty as [-> | [-> | [-> | ->]]]; rewrite Hnil;
        rewrite ?andb_false_r; reflexivity. }
    rewrite Hcols. cbn [fst snd]. split; [reflexivity |].
    intros name Hname. apply saved_other. assumption.
  - intros I C P G HcI HcC HcP HcG Hrows.
    rewrite (aggregate_schema I C P G HcI HcC HcP HcG).
    rewrite aggregated_rows_empty by assumption. reflexivity.
  - intros df out Hdrop Hrows. rewrite drop_run in Hdrop.
    destruct (forallb _ process_drop_list); [| discriminate].
    injection Hdrop as <-. cbn [rows]. rewrite Hrows. reflexivity.
  - intros w' df Hfile Hcols Hrows.
    assert (Hread : read_csv (save_path +:+ "processed.csv") w' = (Ok df, w')).
    { rewrite (read_csv_run _ _ _ Hfile).
      destruct (columns df); [contradiction | reflexivity]. }
    eexists. split.
    { unfold pre_process. rewrite bind_run, Hread. reflexivity. }
    cbn [rows drop_duplicates dropna dropna_columns]. rewrite Hrows. reflexivity.
Qed.

(** C9 fails as stated: with an empty Customer collection, and with four
    empty collections, the run raises in the Joiner. *)
Lemma empty_collection_raises :
  fst (load_data no_customers_db new_year_eve fresh_world) = Raise EmptyDataError
  /\ fst (load_data empty_db new_year_eve fresh_world) = Raise EmptyDataError
  /\ fst (aggregate_data
            (snd ((to_csv (from_records []) (save_path +:+ "interactions.csv");;
                   to_csv (from_records []) (save_path +:+ "customers.csv");;
                   to_csv (from_records []) (save_path +:+ "products.csv");;
                   to_csv (from_records []) (save_path +:+ "prodoutCategory.csv"))
                    fresh_world)))
     = Raise EmptyDataError
  /\ files (snd (load_data empty_db new_year_eve fresh_world))
       !! (save_path +:+ "pre_processed.csv") = None.
Proof. vm_compute. repeat split. Qed.

(** ** The staleness test without a usable record *)

Lemma strptime_raises text fmt e : strptime text fmt = Raise e -> e = ValueError.
Proof.
  unfold strptime, make.
  destruct (re_match _ text default_fields) as [[f [| c s]] |];
    try (intros [= <-]; reflexivity).
  destruct (_ && _); [discriminate | intros [= <-]; reflexivity].
Qed.

(** C1, as the code has it: [load_log] does not answer "stale" when the
    record is missing or unusable, it raises, and the caller gets the
    exception.  A missing file raises [FileNotFoundError]; a file without
    the text [Last updated: ] raises [IndexError]; a file whose text after
    that marker does not parse with the format raises [ValueError].  It
    returns a boolean only when the file exists, holds the marker, and the
    text after it parses; the world is left as it was in every case. *)
Theorem load_log_raises_without_record (now : datetime) (w : World) :
  (files w !! (save_path +:+ "log.txt") = None ->
   load_log now w = (Raise FileNotFoundError, w))
  /\ (forall text,
        files w !! (save_path +:+ "log.txt") = Some (TextFile text) ->
        (forall a b, text <> a +:+ log_marker +:+ b) ->
        load_log now w = (Raise IndexError, w))
  /\ (forall ts,
        files w !! (save_path +:+ "log.txt") = Some (TextFile (log_marker +:+ ts)) ->
        (forall a b, ts <> a +:+ log_marker +:+ b) ->
        is_ok (strptime ts log_format) = false ->
        load_log now w = (Raise ValueError, w))
  /\ (forall b,
        fst (load_log now w) = Ok b ->
        exists text ts t,
          files w !! (save_path +:+ "log.txt") = Some (TextFile text)
          /\ nth_error (split text log_marker) 1 = Some ts
          /\ strptime ts log_format = Ok t
          /\ b = (timedelta_hours 1 <? sub now t)%Z).
Proof.
  split; [| split; [| split]].
  - intros Hnone. unfold load_log. rewrite bind_run. unfold read_text.
    rewrite Hnone. reflexivity.
  - intros text Hfile Habs. rewrite (load_log_run now w text Hfile).
    rewrite split_absent by assumption. reflexivity.
  - intros ts Hfile Habs Hbad. rewrite (load_log_run now w _ Hfile).
    unfold log_marker at 1 2. rewrite split_marker_first by assumption.
    cbn [subscript nth_error rbind].
    destruct (strptime ts log_format) as [t | e] eqn:Hp; [discriminate |].
    apply strptime_raises in Hp as ->. reflexivity.
  - intros b Hb.
    destruct (files w !! (save_path +:+ "log.txt")) as [[text | df] |] eqn:Hfile.
    2, 3: unfold load_log in Hb; rewrite bind_run in Hb; unfold read_text in Hb;
      rewrite Hfile in Hb; discriminate.
    exists text. rewrite (load_log_run now w text Hfile) in Hb.
    cbn [fst] in Hb. unfold subscript in Hb.
    destruct (nth_error (split text log_marker) 1) as [ts |] eqn:Hts;
      [| discriminate].
    cbn [rbind] in Hb.
    destruct (strptime ts log_format) as [t | e] eqn:Ht; [| discriminate].
    exists ts, t. injection Hb as <-. repeat split; assumption.
Qed.

(** C1 fails as stated: without a log file, with the empty file that
    [update_log] creates first, with a text without the marker and with an
    impossible date, [load_log] raises; it does not return true. *)
Lemma load_log_raises_on_sample :
  fst (load_log new_year_eve fresh_world) = Raise FileNotFoundError
  /\ fst (load_log new_year_eve (world_with_log "")) = Raise IndexError
  /\ fst (load_log new_year_eve (world_with_log "updated yesterday")) = Raise IndexError
  /\ fst (load_log new_year_eve (world_with_log "Last updated: 31/02/2023 10:00:00"))
     = Raise ValueError
  /\ fst (load_log new_year_eve (world_with_log "Last updated: 2023-12-31 10:00:00"))
     = Raise ValueError
  /\ fst (load_log new_year_eve fresh_world) <> Ok true
  /\ fst (load_log new_year_eve (world_with_log "updated yesterday")) <> Ok true.
Proof. vm_compute. repeat split; discriminate. Qed.

(** ** The statements at work on the sample *)

Lemma load_log_raises_witness :
  load_log new_year_eve fresh_world = (Raise FileNotFoundError, fresh_world)
  /\ load_log new_year_eve (world_with_log "updated yesterday")
     = (Raise IndexError, world_with_log "updated yesterday").
Proof.
  split.
  - apply (proj1 (load_log_raises_without_record new_year_eve fresh_world)).
    reflexivity.
  - apply (proj1 (proj2 (load_log_raises_without_record new_year_eve
                           (world_with_log "updated yesterday")))
             "updated yesterday").
    + vm_compute. reflexivity.
    + apply (no_first_char_absent "L" "ast updated: "). vm_compute. reflexivity.
Defined.

Lemma load_log_boundary_witness :
  valid new_year_eve = true
  /\ fst (load_log (new_year 0 30 0 0) stamped_world) = Ok false
  /\ fst (load_log (new_year 0 29 59 0) stamped_world) = Ok false
  /\ fst (load_log (new_year 0 30 1 0) stamped_world) = Ok true.
Proof.
  split; [reflexivity |]. unfold stamped_world. split; [| split].
  - destruct (load_log_stale_after_one_hour new_year_eve (new_year 0 30 0 0)
                fresh_world eq_refl) as (_ & _ & Hexact & _).
    apply Hexact. vm_compute. reflexivity.
  - destruct (load_log_stale_after_one_hour new_year_eve (new_year 0 29 59 0)
                fresh_world eq_refl) as (_ & _ & _ & Hbefore & _).
    apply Hbefore. vm_compute. reflexivity.
  - destruct (load_log_stale_after_one_hour new_year_eve (new_year 0 30 1 0)
                fresh_world eq_refl) as (_ & _ & _ & _ & Hafter).
    apply Hafter. vm_compute. reflexivity.
Defined.

Ltac sample_frame_ok := unfold frame_ok; vm_compute; repeat constructor.

Ltac sample_unique_id :=
  unfold unique_id; vm_compute;
  repeat (apply List.NoDup_cons; [simpl; intuition discriminate |]);
  apply List.NoDup_nil.

Lemma aggregate_identifier_columns_witness :
  exists agg, aggregate I0 C0 P0 G0 = Ok agg
              /\ identifier_columns agg = ["_id_x"; "_id_y"; "_id"].
Proof.
  assert (HI : frame_ok I0) by sample_frame_ok.
  assert (HC : frame_ok C0) by sample_frame_ok.
  assert (HP : frame_ok P0) by sample_frame_ok.
  destruct (aggregate_identifier_columns I0 C0 P0 G0
              eq_refl eq_refl eq_refl eq_refl HI HC HP)
    as (df1 & df2 & agg & _ & _ & _ & _ & _ & _ & Hids & Hagg & _).
  exists agg. split; assumption.
Defined.

Lemma aggregate_row_count_witness :
  exists agg,
    files (snd (aggregate_data (saved I0 C0 P0 G0 fresh_world)))
      !! (save_path +:+ "aggregated.csv") = Some (CsvFile agg)
    /\ (len agg < len I0)%nat
    /\ forall r, In r (rows agg) ->
         firstn 4 r <> [Some "i3"; Some "c9"; Some "p1"; Some "1"].
Proof.
  assert (HI : frame_ok I0) by sample_frame_ok.
  assert (HC : frame_ok C0) by sample_frame_ok.
  assert (NC : unique_id C0) by sample_unique_id.
  assert (NP : unique_id P0) by sample_unique_id.
  assert (NG : unique_id G0) by sample_unique_id.
  destruct (saved_lookup I0 C0 P0 G0 fresh_world) as (FI & FC & FP & FG).
  destruct (aggregate_row_count (saved I0 C0 P0 G0 fresh_world) I0 C0 P0 G0
              FI FC FP FG eq_refl eq_refl eq_refl eq_refl HI HC NC NP NG)
    as (agg & _ & Hfile & Hle & Heq & Hin & _).
  assert (Hdangling : ~ resolves C0 P0 G0 [Some "i3"; Some "c9"; Some "p1"; Some "1"]).
  { intros [(c & Hc & Hk) _]. vm_compute in Hc.
    destruct Hc as [<- | [<- | [<- | []]]]; vm_compute in Hk; discriminate Hk. }
  exists agg. split; [exact Hfile |]. split.
  - assert (Hne : len agg <> len I0).
    { intros Hall. apply Hdangling. apply (proj1 Heq Hall).
      vm_compute. tauto. }
    lia.
  - intros r Hr Hfirst. apply Hdangling. rewrite <- Hfirst.
    apply (Hin r Hr).
Defined.

Lemma process_data_drops_witness :
  exists out,
    files (snd (process_data sample_world)) !! (save_path +:+ "processed.csv")
    = Some (CsvFile out)
    /\ columns out
       = ["_id_x"; "customerId"; "productId"; "interactionType"; "productName";
          "description"; "productCatrgoryName"; "productCategoryId"]
    /\ column out "_id_x" = column joined3 "_id_x".
Proof.
  assert (Hfile : files sample_world !! (save_path +:+ "aggregated.csv")
                  = Some (CsvFile joined3)) by (vm_compute; reflexivity).
  assert (Hall : forall c, In c process_drop_list -> In c (columns joined3)).
  { intros c Hc. unfold process_drop_list in Hc. simpl in Hc.
    repeat (destruct Hc as [<- | Hc]; [vm_compute; tauto |]). contradiction. }
  destruct (process_data_drops_exclusion_list sample_world joined3 Hfile Hall)
    as (out & Hrun & _ & _ & _ & _ & _ & Hjoined).
  destruct (Hjoined eq_refl) as [Hcols Hid].
  exists out. rewrite Hrun. cbn [snd files]. split; [apply lookup_insert_eq |].
  split; [exact Hcols | exact Hid].
Defined.

Lemma process_data_twice_witness :
  exists out,
    files (snd (process_data sample_world)) !! (save_path +:+ "processed.csv")
    = Some (CsvFile out)
    /\ drop out process_drop_list = Raise KeyError.
Proof.
  assert (Hfile : files sample_world !! (save_path +:+ "aggregated.csv")
                  = Some (CsvFile joined3)) by (vm_compute; reflexivity).
  assert (Hrun : process_data sample_world
                 = (Ok tt, snd (process_data sample_world)))
    by (vm_compute; reflexivity).
  destruct (proj2 (process_data_requires_drop_list sample_world joined3 Hfile)
              _ Hrun) as (out & Hout & Hdrop & _).
  exists out. split; assumption.
Defined.

Lemma pre_process_threshold_witness :
  exists out,
    fst (pre_process hundred_world) = Ok tt
    /\ files (snd (pre_process hundred_world)) !! (save_path +:+ "pre_processed.csv")
       = Some (CsvFile out)
    /\ ~ In "productName" (columns out)
    /\ In "description" (columns out).
Proof.
  assert (Hfile : files hundred_world !! (save_path +:+ "processed.csv")
                  = Some (CsvFile hundred_rows)) by (vm_compute; reflexivity).
  assert (Hcols : columns hundred_rows <> []) by discriminate.
  assert (Hnd : List.NoDup (columns hundred_rows)).
  { repeat (apply List.NoDup_cons; [simpl; intuition discriminate |]).
    apply List.NoDup_nil. }
  destruct (pre_process_column_threshold hundred_world hundred_rows Hfile Hcols Hnd)
    as (out & Hrun & Hthresh).
  exists out. rewrite Hrun. cbn [fst snd files].
  split; [reflexivity |]. split; [apply lookup_insert_eq |]. split.
  - destruct (Hthresh "productName" 0%nat eq_refl) as (_ & _ & _ & H80 & _).
    apply H80; vm_compute; reflexivity.
  - destruct (Hthresh "description" 1%nat eq_refl) as (_ & _ & _ & _ & H70).
    apply H70; vm_compute; reflexivity.
Defined.

Lemma failed_run_keeps_log_witness :
  fst (refresh empty_db (new_year 2 0 0 0) stamped_world) = Raise EmptyDataError
  /\ log_of (snd (load_data empty_db (new_year 2 0 0 0) stamped_world))
     = Some (stamp new_year_eve)
  /\ fst (load_log (new_year 2 0 0 0)
            (snd (load_data empty_db (new_year 2 0 0 0) stamped_world)))
     = Ok true.
Proof.
  assert (Hfail : fst (refresh empty_db (new_year 2 0 0 0) stamped_world)
                  = Raise EmptyDataError) by (vm_compute; reflexivity).
  destruct (failed_run_keeps_freshness_log no_engine empty_db "u1" 0
              (new_year 2 0 0 0) (new_year 2 0 0 0) (new_year 2 0 0 0)
              stamped_world EmptyDataError Hfail)
    as (_ & _ & Hlog & Hlater & _).
  split; [exact Hfail |]. split.
  - rewrite Hlog. vm_compute. reflexivity.
  - rewrite Hlater. vm_compute. reflexivity.
Defined.

Lemma empty_collection_witness :
  fst (refresh no_customers_db new_year_eve fresh_world) = Raise EmptyDataError
  /\ files (snd (refresh no_customers_db new_year_eve fresh_world))
       !! (save_path +:+ "aggregated.csv") = None.
Proof.
  destruct (empty_collection_fails_run no_customers_db new_year_eve fresh_world
              sample_interactions [] sample_products sample_categories
              eq_refl eq_refl eq_refl eq_refl (or_intror (or_introl eq_refl)))
    as ((Hfail & Hfiles) & _).
  split; [exact Hfail |].
  rewrite (Hfiles "aggregated.csv") by (left; reflexivity). reflexivity.
Defined.

(** * Further properties of the program *)

(** ** The Cleaner *)

Lemma pre_process_run w df :
  files w !! (save_path +:+ "processed.csv") = Some (CsvFile df) ->
  columns df <> [] ->
  pre_process w
  = (Ok tt, mk_world (<[save_path +:+ "pre_processed.csv" := CsvFile (cleaned df)]>
                        (files w))
                     (engine_calls w)).
Proof.
  intros Hfile Hcols. unfold pre_process.
  rewrite bind_run, (read_csv_run _ _ _ Hfile).
  destruct (columns df); [contradiction | reflexivity].
Qed.

Lemma row_eqb_eq a b : row_eqb a b = true <-> a = b.
Proof.
  revert b. induction a as [| x a IH]; intros [| y b]; simpl;
    try (split; [discriminate | discriminate]); [split; reflexivity |].
  rewrite andb_true_iff, cell_eqb_eq, IH. split.
  - intros [-> ->]. reflexivity.
  - intros [= -> ->]. auto.
Qed.

Lemma existsb_row_eqb r seen : existsb (row_eqb r) seen = true <-> In r seen.
Proof.
  rewrite existsb_exists. split.
  - intros (x & Hin & Heq). apply row_eqb_eq in Heq. subst. assumption.
  - intros Hin. exists r. split; [assumption | apply row_eqb_eq; reflexivity].
Qed.

Lemma in_first_occurrences seen rs r :
  In r (first_occurrences seen rs) <-> In r rs /\ ~ In r seen.
Proof.
  revert seen. induction rs as [| x rs IH]; intros seen; simpl; [tauto |].
  destruct (existsb (row_eqb x) seen) eqn:Hx.
  - apply existsb_row_eqb in Hx. rewrite IH. split.
    + intros [Hin Hn]. auto.
    + intros [[-> | Hin] Hn]; [contradiction | auto].
  - assert (Hnx : ~ In x seen).
    { intros Hin. apply existsb_row_eqb in Hin. congruence. }
    simpl. rewrite IH. simpl. split.
    + intros [<- | [Hin Hn]]; [auto |]. split; [auto | tauto].
    + intros [[-> | Hin] Hn]; [auto |].
      destruct (row_eqb x r) eqn:Hxr; [apply row_eqb_eq in Hxr; auto |].
      right. split; [assumption |]. intros [Heq | Hs]; [| contradiction].
      apply row_eqb_eq in Heq. congruence.
Qed.

Lemma NoDup_first_occurrences seen rs : List.NoDup (first_occurrences seen rs).
Proof.
  revert seen. induction rs as [| x rs IH]; intros seen; simpl; [constructor |].
  destruct (existsb (row_eqb x) seen); [apply IH |].
  constructor; [| apply IH].
  rewrite in_first_occurrences. simpl. tauto.
Qed.

Lemma first_occurrences_length seen rs :
  (length (first_occurrences seen rs) <= length rs)%nat.
Proof.
  revert seen. induction rs as [| x rs IH]; intros seen; simpl; [lia |].
  destruct (existsb (row_eqb x) seen); simpl.
  - specialize (IH seen). lia.
  - specialize (IH (x :: seen)). lia.
Qed.

Lemma first_occurrences_NoDup seen rs :
  List.NoDup rs -> (forall r, In r rs -> ~ In r seen) ->
  first_occurrences seen rs = rs.
Proof.
  revert seen. induction rs as [| x rs IH]; intros seen Hnd Hfresh; [reflexivity |].
  inversion Hnd as [| ? ? Hx Hnd']; subst. simpl.
  destruct (existsb (row_eqb x) seen) eqn:Hs.
  - apply existsb_row_eqb in Hs. exfalso. apply (Hfresh x); [left; reflexivity | assumption].
  - f_equal. apply IH; [assumption |].
    intros r Hr [<- | Hin]; [contradiction |].
    apply (Hfresh r); [right; assumption | assumption].
Qed.

Lemma In_select {A : Type} (mask : list bool) (l : list A) (x : A) :
  In x (select mask l) -> In x l.
Proof.
  revert l. induction mask as [| b mask IH]; intros [| y l]; simpl; try contradiction.
  destruct b; simpl; intros H.
  - destruct H as [-> | H]; [auto | right; apply IH; assumption].
  - right. apply IH. assumption.
Qed.

Lemma filter_filter_same {A : Type} (f : A -> bool) (l : list A) :
  List.filter f (List.filter f l) = List.filter f l.
Proof.
  induction l as [| x l IH]; simpl; [reflexivity |].
  destruct (f x) eqn:Hf; simpl; [rewrite Hf, IH; reflexivity | exact IH].
Qed.

(** X1: whatever ProcessedTable is stored (with at least one column),
    [pre_process] completes and stores a table without NaN and without two
    equal rows; its columns are columns of the input, it has no more rows
    than the input, and the second [dropna()] of the source changes
    nothing. *)
Theorem pre_process_output_clean (w : World) (df : DataFrame) :
  files w !! (save_path +:+ "processed.csv") = Some (CsvFile df) ->
  columns df <> [] ->
  exists out,
    pre_process w
    = (Ok tt, mk_world (<[save_path +:+ "pre_processed.csv" := CsvFile out]> (files w))
                       (engine_calls w))
    /\ no_nan out
    /\ List.NoDup (rows out)
    /\ (forall c, In c (columns out) -> In c (columns df))
    /\ (len out <= len df)%nat
    /\ out = drop_duplicates
               (dropna (dropna_columns df (inject_Z (Z.of_nat (len df)) * 0.25)%Q)).
Proof.
  intros Hfile Hcols. exists (cleaned df).
  split; [apply pre_process_run; assumption |].
  unfold cleaned, no_nan, len, drop_duplicates, dropna, dropna_columns.
  cbn [rows columns]. rewrite filter_filter_same.
  split; [| split; [| split; [| split]]].
  - apply List.Forall_forall. intros r Hr.
    apply in_first_occurrences in Hr as [Hr _].
    apply filter_In in Hr as [_ Hr]. exact Hr.
  - apply NoDup_first_occurrences.
  - intros c. apply In_select.
  - etransitivity; [apply first_occurrences_length |].
    etransitivity; [apply List.filter_length_le |].
    rewrite length_map. reflexivity.
  - reflexivity.
Qed.

Lemma filter_all {A : Type} (f : A -> bool) (l : list A) :
  (forall x, In x l -> f x = true) -> List.filter f l = l.
Proof.
  induction l as [| x l IH]; intros H; simpl; [reflexivity |].
  rewrite (H x) by (left; reflexivity). f_equal. apply IH.
  intros y Hy. apply H. right. assumption.
Qed.

Lemma select_all {A : Type} (f : nat -> bool) (l : list A) (s : nat) :
  (forall i, (s <= i < s + length l)%nat -> f i = true) ->
  select (map f (seq s (length l))) l = l.
Proof.
  revert s. induction l as [| x l IH]; intros s H; simpl; [reflexivity |].
  rewrite (H s) by (simpl; lia). f_equal. apply IH.
  intros i Hi. apply H. simpl. lia.
Qed.

Lemma select_length_eq {A B : Type} (mask : list bool) (l1 : list A) (l2 : list B) :
  length l1 = length l2 -> length (select mask l1) = length (select mask l2).
Proof.
  revert l1 l2. induction mask as [| b mask IH]; intros [| x l1] [| y l2] H;
    simpl in *; try reflexivity; try discriminate.
  injection H as H. destruct b; simpl; rewrite (IH l1 l2 H); reflexivity.
Qed.

Lemma notna_cell_of_full_row (r : row) (i : nat) :
  forallb notna r = true -> (i < length r)%nat -> notna (get i r) = true.
Proof.
  intros Hall Hi. rewrite forallb_forall in Hall. apply Hall.
  unfold get. apply nth_In. assumption.
Qed.

Lemma count_notna_full df i :
  frame_ok df -> no_nan df -> (i < length (columns df))%nat ->
  count_notna df i = len df.
Proof.
  unfold frame_ok, no_nan, count_notna, len. intros Hok Hfull Hi.
  rewrite List.Forall_forall in Hok, Hfull.
  rewrite filter_all; [reflexivity |].
  intros r Hr. apply notna_cell_of_full_row; [auto |]. rewrite (Hok r Hr). assumption.
Qed.

(** A table without NaN and without equal rows, with one cell per column,
    goes through the three steps of the Cleaner unchanged. *)
Lemma cleaned_identity df :
  frame_ok df -> no_nan df -> List.NoDup (rows df) -> cleaned df = df.
Proof.
  intros Hok Hfull Hnd.
  assert (Hcols : dropna_columns df (inject_Z (Z.of_nat (len df)) * 0.25)%Q = df).
  { unfold dropna_columns.
    assert (Hmask : forall i, (0 <= i < 0 + length (columns df))%nat ->
              Qle_bool (inject_Z (Z.of_nat (len df)) * 0.25)%Q
                       (inject_Z (Z.of_nat (count_notna df i))) = true).
    { intros i Hi. rewrite count_notna_full by (assumption || lia).
      apply quarter_threshold. lia. }
    rewrite select_all by exact Hmask.
    replace (map _ (rows df)) with (rows df); [destruct df; reflexivity |].
    symmetry. rewrite <- (map_id (rows df)) at 2. apply map_ext_in.
    intros r Hr. unfold frame_ok in Hok. rewrite List.Forall_forall in Hok.
    rewrite <- (Hok r Hr). apply select_all.
    intros i Hi. apply Hmask. rewrite <- (Hok r Hr). exact Hi. }
  unfold cleaned. rewrite Hcols.
  assert (Hna : dropna df = df).
  { unfold dropna. rewrite filter_all; [destruct df; reflexivity |].
    unfold no_nan in Hfull. rewrite List.Forall_forall in Hfull. exact Hfull. }
  rewrite !Hna. unfold drop_duplicates.
  rewrite first_occurrences_NoDup; [destruct df; reflexivity | assumption |].
  intros r _ [].
Qed.

Lemma cleaned_rows df r :
  In r (rows (cleaned df)) ->
  forallb notna r = true
  /\ exists r0, In r0 (rows df)
       /\ r = select (map (fun i => Qle_bool (inject_Z (Z.of_nat (len df)) * 0.25)%Q
                                     (inject_Z (Z.of_nat (count_notna df i))))
                          (seq 0 (length (columns df)))) r0.
Proof.
  unfold cleaned, drop_duplicates, dropna, dropna_columns. cbn [rows columns].
  intros Hr. apply in_first_occurrences in Hr as [Hr _].
  apply filter_In in Hr as [Hr _]. apply filter_In in Hr as [Hr Hfull].
  split; [assumption |]. apply in_map_iff in Hr as (r0 & <- & Hr0). eauto.
Qed.

Lemma cleaned_clean df :
  frame_ok df ->
  frame_ok (cleaned df) /\ no_nan (cleaned df) /\ List.NoDup (rows (cleaned df)).
Proof.
  intros Hok. unfold frame_ok in Hok. rewrite List.Forall_forall in Hok.
  split; [| split].
  - apply List.Forall_forall. intros r Hr.
    apply cleaned_rows in Hr as (_ & r0 & Hr0 & ->).
    apply select_length_eq. apply Hok. assumption.
  - apply List.Forall_forall. intros r Hr. apply cleaned_rows in Hr. tauto.
  - apply NoDup_first_occurrences.
Qed.

(** X2: a stored ProcessedTable that has one cell per column, no NaN and
    no two equal rows is stored again unchanged by [pre_process]: no
    column and no row is lost. *)
Theorem pre_process_keeps_clean_table (w : World) (df : DataFrame) :
  files w !! (save_path +:+ "processed.csv") = Some (CsvFile df) ->
  columns df <> [] ->
  frame_ok df -> no_nan df -> List.NoDup (rows df) ->
  pre_process w
  = (Ok tt, mk_world (<[save_path +:+ "pre_processed.csv" := CsvFile df]> (files w))
                     (engine_calls w)).
Proof.
  intros Hfile Hcols Hok Hfull Hnd.
  rewrite (pre_process_run w df Hfile Hcols).
  rewrite cleaned_identity by assumption. reflexivity.
Qed.

(** X3: the Cleaner is idempotent.  If the table [pre_process] stores is
    fed to it again as its input, it stores the same table. *)
Theorem pre_process_idempotent (w : World) (df : DataFrame) :
  files w !! (save_path +:+ "processed.csv") = Some (CsvFile df) ->
  columns df <> [] ->
  frame_ok df ->
  exists out,
    pre_process w
    = (Ok tt, mk_world (<[save_path +:+ "pre_processed.csv" := CsvFile out]> (files w))
                       (engine_calls w))
    /\ forall w2,
         files w2 !! (save_path +:+ "processed.csv") = Some (CsvFile out) ->
         columns out <> [] ->
         pre_process w2
         = (Ok tt,
            mk_world (<[save_path +:+ "pre_processed.csv" := CsvFile out]> (files w2))
                     (engine_calls w2)).
Proof.
  intros Hfile Hcols Hok. exists (cleaned df).
  split; [apply pre_process_run; assumption |].
  intros w2 Hfile2 Hcols2.
  destruct (cleaned_clean df Hok) as (Hok' & Hfull' & Hnd').
  rewrite (pre_process_run w2 _ Hfile2 Hcols2).
  rewrite cleaned_identity by assumption. reflexivity.
Qed.

(** ** The freshness log, further *)

Lemma append_same_head p a b : p +:+ a = p +:+ b -> a = b.
Proof.
  induction p as [| c p IH]; intros H; [exact H |].
  apply IH. injection H as H. exact H.
Qed.

Lemma TextFile_injective a b : TextFile a = TextFile b -> a = b.
Proof. intros [= ->]. reflexivity. Qed.

Lemma stamp_to_seconds t : stamp t = stamp (to_seconds t).
Proof. reflexivity. Qed.

(** X5: the record keeps the clock reading to the second, no more and no
    less: two valid readings are written as the same record exactly when
    they agree on year, month, day, hour, minute and second. *)
Theorem stamp_equal_iff_same_second (t1 t2 : datetime) :
  valid t1 = true -> valid t2 = true ->
  (stamp t1 = stamp t2 <-> to_seconds t1 = to_seconds t2).
Proof.
  intros H1 H2. split.
  - intros Heq. unfold stamp in Heq. apply TextFile_injective in Heq.
    apply append_same_head in Heq. fold log_format in Heq.
    pose proof (strptime_strftime t1 H1) as P1.
    pose proof (strptime_strftime t2 H2) as P2.
    rewrite Heq in P1. congruence.
  - intros Heq. rewrite (stamp_to_seconds t1), (stamp_to_seconds t2), Heq.
    reflexivity.
Qed.

Lemma stamp_equal_witness :
  stamp new_year_eve = stamp (mk_datetime 2023 12 31 23 30 0 999)
  /\ stamp new_year_eve <> stamp (mk_datetime 2023 12 31 23 30 1 0).
Proof.
  split.
  - apply (stamp_equal_iff_same_second new_year_eve
             (mk_datetime 2023 12 31 23 30 0 999) eq_refl eq_refl).
    reflexivity.
  - intros H.
    apply (stamp_equal_iff_same_second new_year_eve
             (mk_datetime 2023 12 31 23 30 1 0) eq_refl eq_refl) in H.
    discriminate H.
Defined.

Lemma sub_additive a b c : (sub a c = sub a b + sub b c)%Z.
Proof. unfold sub, timedelta_of. lia. Qed.

(** X6: the staleness test has no effect on the stored state, and its
    answer only moves one way: once [load_log] says stale, it says stale
    at every later reading of the clock, as long as the log is not
    rewritten. *)
Theorem load_log_stays_stale (now later : datetime) (w : World) :
  fst (load_log now w) = Ok true ->
  (0 <= sub later now)%Z ->
  load_log later w = (Ok true, w) /\ snd (load_log now w) = w.
Proof.
  intros Hstale Hlater. split; [| apply load_log_world].
  destruct (files w !! (save_path +:+ "log.txt")) as [[text | df] |] eqn:Hfile.
  2, 3: unfold load_log in Hstale; rewrite bind_run in Hstale;
    unfold read_text in Hstale; rewrite Hfile in Hstale; discriminate.
  rewrite (load_log_run now w text Hfile) in Hstale.
  rewrite (load_log_run later w text Hfile).
  destruct (subscript (split text log_marker) 1) as [ts |]; [| discriminate].
  cbn [rbind fst] in *.
  destruct (strptime ts log_format) as [t |]; [| discriminate].
  cbn [rbind] in *. injection Hstale as Hstale. apply Z.ltb_lt in Hstale.
  assert (Hlt : (timedelta_hours 1 <? sub later t)%Z = true).
  { apply Z.ltb_lt. rewrite (sub_additive later now t). lia. }
  rewrite Hlt. reflexivity.
Qed.

Lemma load_log_stays_stale_witness :
  load_log (new_year 9 0 0 0) stamped_world = (Ok true, stamped_world).
Proof.
  apply (load_log_stays_stale (new_year 0 30 1 0) (new_year 9 0 0 0) stamped_world).
  - vm_compute. reflexivity.
  - vm_compute. discriminate.
Defined.

(** ** The Joiner, further *)

Lemma resolvesb_spec C P G i : resolvesb C P G i = true <-> resolves C P G i.
Proof.
  unfold resolvesb, resolves. rewrite andb_true_iff, !existsb_exists. split.
  - intros [(c & Hc & Hk1) (p & Hp & Hk)]. apply andb_true_iff in Hk as [Hk2 Hg].
    apply existsb_exists in Hg as (g & Hg & Hk3).
    apply cell_eqb_eq in Hk1, Hk2, Hk3. split; [eauto |].
    exists p. repeat split; eauto.
  - intros [(c & Hc & Hk1) (p & Hp & Hk2 & g & Hg & Hk3)]. split.
    + exists c. split; [assumption | apply cell_eqb_eq; assumption].
    + exists p. split; [assumption |]. apply andb_true_iff. split.
      * apply cell_eqb_eq. assumption.
      * apply existsb_exists. exists g. split; [assumption |].
        apply cell_eqb_eq. assumption.
Qed.

Lemma join_rows_app li ri L1 L2 R :
  join_rows li ri (L1 ++ L2) R = join_rows li ri L1 R ++ join_rows li ri L2 R.
Proof. unfold join_rows. apply flat_map_app. Qed.

Lemma aggregated_rows_cons i I C P G :
  aggregated_rows (i :: I) C P G
  = aggregated_rows [i] C P G ++ aggregated_rows I C P G.
Proof.
  unfold aggregated_rows.
  change (i :: I) with ([i] ++ I).
  rewrite join_rows_app, map_app, !join_rows_app. reflexivity.
Qed.

Lemma aggregated_row_origin I C P G r :
  List.Forall (fun r => length r = 4%nat) I ->
  List.Forall (fun r => length r = 5%nat) C ->
  In r (aggregated_rows I C P G) ->
  In (firstn 4 r) I
  /\ (exists c, In c C /\ get 0 c = get 1 (firstn 4 r))
  /\ (exists p, In p P /\ get 0 p = get 2 (firstn 4 r)
                /\ exists g, In g G /\ get 0 g = get 5 p).
Proof.
  intros HI HC Hr.
  apply (in_aggregated_rows I C P G r HI HC) in Hr
    as (i & c & p & g & Hi & Hc & Hp & Hg & Hk1 & Hk2 & Hk3 & ->).
  rewrite List.Forall_forall in HI, HC.
  destruct (joined_customer_cells i c p g (HI i Hi) (HC c Hc)) as (_ & _ & ->).
  split; [assumption |]. split; [exists c; auto |].
  exists p. repeat split; auto. exists g. auto.
Qed.

Lemma aggregated_row_present I C P G i :
  List.Forall (fun r => length r = 4%nat) I ->
  List.Forall (fun r => length r = 5%nat) C ->
  In i I ->
  (exists c, In c C /\ get 0 c = get 1 i) ->
  (exists p, In p P /\ get 0 p = get 2 i /\ exists g, In g G /\ get 0 g = get 5 p) ->
  exists r, In r (aggregated_rows I C P G) /\ firstn 4 r = i.
Proof.
  intros HI HC Hi (c & Hc & Hk1) (p & Hp & Hk2 & g & Hg & Hk3).
  exists (((i ++ tl c) ++ p) ++ g). split.
  - apply (in_aggregated_rows I C P G _ HI HC). exists i, c, p, g. auto 10.
  - rewrite List.Forall_forall in HI, HC.
    apply (joined_customer_cells i c p g (HI i Hi) (HC c Hc)).
Qed.

Lemma aggregated_rows_single_length i C P G :
  List.NoDup (map (get 0) C) -> List.NoDup (map (get 0) P) ->
  List.NoDup (map (get 0) G) ->
  (length (aggregated_rows [i] C P G) <= 1)%nat.
Proof.
  intros NC NP NG. unfold aggregated_rows.
  set (mask := [true; true; true; true; false; true; true; true; true]).
  set (rows1 := map (select mask) (join_rows 1 0 [i] C)).
  destruct (join_rows_length 1 0 [i] C NC) as [L1 _].
  destruct (join_rows_length 2 0 rows1 P NP) as [L2 _].
  destruct (join_rows_length 13 0 (join_rows 2 0 rows1 P) G NG) as [L3 _].
  assert (Hlen : length rows1 = length (join_rows 1 0 [i] C)) by apply length_map.
  change (length [i]) with 1%nat in L1. unfold row in *. lia.
Qed.

Lemma aggregated_rows_single i C P G (CF PF GF : DataFrame) :
  rows CF = C -> rows PF = P -> rows GF = G ->
  length i = 4%nat ->
  List.Forall (fun r => length r = 5%nat) C ->
  List.NoDup (map (get 0) C) -> List.NoDup (map (get 0) P) ->
  List.NoDup (map (get 0) G) ->
  map (firstn 4) (aggregated_rows [i] C P G)
  = if resolvesb CF PF GF i then [i] else [].
Proof.
  intros <- <- <- Hi HC NC NP NG.
  assert (HI : List.Forall (fun r => length r = 4%nat) [i])
    by (constructor; [assumption | constructor]).
  pose proof (aggregated_row_origin [i] (rows CF) (rows PF) (rows GF)) as Horigin.
  pose proof (aggregated_row_present [i] (rows CF) (rows PF) (rows GF) i HI HC) as Hpresent.
  set (S0 := aggregated_rows [i] (rows CF) (rows PF) (rows GF)) in *.
  assert (Hlen : (length S0 <= 1)%nat)
    by (apply aggregated_rows_single_length; assumption).
  clearbody S0. destruct S0 as [| r [| r' S]].
  - destruct (resolvesb CF PF GF i) eqn:Hres; [| reflexivity].
    apply resolvesb_spec in Hres.
    apply (proj1 (resolves_cells CF PF GF i)) in Hres as [H1 H2].
    destruct (Hpresent (or_introl eq_refl) H1 H2) as (r & [] & _).
  - destruct (Horigin r HI HC (or_introl eq_refl)) as ([Hr | []] & H1 & H2).
    cbn [map]. rewrite <- Hr in H1, H2 |- *.
    assert (Hres : resolvesb CF PF GF i = true).
    { apply resolvesb_spec. apply resolves_cells. split; assumption. }
    rewrite Hres. reflexivity.
  - simpl in Hlen. lia.
Qed.

(** The joined frame lists the resolving interactions, on the frames
    themselves. *)
Lemma aggregate_keeps_interactions_frames (I C P G : DataFrame) :
  columns I = interactions_columns -> columns C = customers_columns ->
  columns P = products_columns -> columns G = categories_columns ->
  frame_ok I -> frame_ok C ->
  unique_id C -> unique_id P -> unique_id G ->
  exists agg,
    aggregate I C P G = Ok agg
    /\ map (firstn 4) (rows agg) = List.filter (resolvesb C P G) (rows I)
    /\ column agg "_id_x"
       = Some (map (field interactions_columns "_id")
                   (List.filter (resolvesb C P G) (rows I))).
Proof.
  intros HcI HcC HcP HcG HI HC NC NP NG.
  exists (mk_frame aggregated_columns
                   (aggregated_rows (rows I) (rows C) (rows P) (rows G))).
  split; [apply aggregate_schema; assumption |].
  unfold frame_ok in HI, HC. rewrite HcI in HI. rewrite HcC in HC.
  change (length interactions_columns) with 4%nat in HI.
  change (length customers_columns) with 5%nat in HC.
  unfold unique_id in NC, NP, NG. rewrite HcC in NC. rewrite HcP in NP.
  rewrite HcG in NG.
  change (field customers_columns "_id") with (get 0) in NC.
  change (field products_columns "_id") with (get 0) in NP.
  change (field categories_columns "_id") with (get 0) in NG.
  cbn [rows].
  assert (Hall : forall rI, List.Forall (fun r => length r = 4%nat) rI ->
            map (firstn 4) (aggregated_rows rI (rows C) (rows P) (rows G))
            = List.filter (resolvesb C P G) rI).
  { induction rI as [| i rI IH]; intros HrI; [reflexivity |].
    inversion HrI as [| ? ? Hi HrI']; subst.
    rewrite aggregated_rows_cons, map_app.
    transitivity ((if resolvesb C P G i then [i] else [])
                  ++ List.filter (resolvesb C P G) rI).
    - f_equal; [| apply IH; assumption].
      apply (aggregated_rows_single i _ _ _ C P G eq_refl eq_refl eq_refl
               Hi HC NC NP NG).
    - cbn [List.filter]. destruct (resolvesb C P G i); reflexivity. }
  pose proof (Hall (rows I) HI) as Hrows.
  split; [exact Hrows |].
  unfold column. cbn [columns rows].
  change (col_index "_id_x" aggregated_columns) with (Some 0%nat).
  f_equal. rewrite <- Hrows, map_map. apply map_ext.
  intros r. destruct r as [| a [| b [| c [| d r]]]]; reflexivity.
Qed.

(** X7: when the four stored raw tables have the declared columns, one
    cell per column, and identifiers that are unique in Customer, Product
    and ProductCategory, the table [aggregate_data] stores holds each
    interaction whose keys resolve exactly once, and nothing else: its
    rows, cut to their first four cells, are a rearrangement of the rows
    of Interaction that resolve, and its [_id_x] column is a rearrangement
    of their identifiers.  (Stated up to the order of the rows.) *)
Theorem aggregate_keeps_each_interaction_once (w : World) (I C P G : DataFrame) :
  files w !! (save_path +:+ "interactions.csv") = Some (CsvFile I) ->
  files w !! (save_path +:+ "customers.csv") = Some (CsvFile C) ->
  files w !! (save_path +:+ "products.csv") = Some (CsvFile P) ->
  files w !! (save_path +:+ "prodoutCategory.csv") = Some (CsvFile G) ->
  columns I = interactions_columns -> columns C = customers_columns ->
  columns P = products_columns -> columns G = categories_columns ->
  frame_ok I -> frame_ok C ->
  unique_id C -> unique_id P -> unique_id G ->
  exists agg ids,
    aggregate_data w
    = (Ok tt, mk_world (<[save_path +:+ "aggregated.csv" := CsvFile agg]> (files w))
                       (engine_calls w))
    /\ Permutation (map (firstn 4) (rows agg))
                   (List.filter (resolvesb C P G) (rows I))
    /\ column agg "_id_x" = Some ids
    /\ Permutation ids
         (map (field interactions_columns "_id")
              (List.filter (resolvesb C P G) (rows I)))
    /\ len agg = length (List.filter (resolvesb C P G) (rows I)).
Proof.
  intros FI FC FP FG HcI HcC HcP HcG HI HC NC NP NG.
  destruct (aggregate_keeps_interactions_frames I C P G
              HcI HcC HcP HcG HI HC NC NP NG) as (agg & Hagg & Hrows & Hids).
  exists agg. eexists.
  split.
  { rewrite (aggregate_data_run w I C P G FI FC FP FG), Hagg; try reflexivity.
    - rewrite HcI. discriminate.
    - rewrite HcC. discriminate.
    - rewrite HcP. discriminate.
    - rewrite HcG. discriminate. }
  split; [rewrite Hrows; apply Permutation_refl |].
  split; [exact Hids |].
  split; [apply Permutation_refl |].
  unfold len. rewrite <- Hrows. symmetry. apply length_map.
Qed.

Lemma row_of_three (r : row) :
  length r = 3%nat -> exists a b c, r = [a; b; c].
Proof.
  destruct r as [| a [| b [| c [| d r]]]]; simpl; intros H; try discriminate.
  eauto.
Qed.

Lemma drop_aggregated rs :
  drop (mk_frame aggregated_columns rs) process_drop_list
  = Ok (mk_frame processed_columns
          (map (select [true; true; true; true; false; false; false; false;
                        false; true; false; false; true; false; false;
                        false; true; true]) rs)).
Proof. reflexivity. Qed.

(** X8: the Projector fits the Joiner.  For raw tables with the declared
    columns and one cell per column, [aggregate_data]'s table carries every
    label of [process_data]'s drop list, so the projection does not raise;
    the ProcessedTable has the columns [_id_x], [customerId], [productId],
    [interactionType], [productName], [description], [productCatrgoryName],
    [productCategoryId], as many rows as the AggregatedTable, and each of
    its rows is an interaction followed by the name and description of its
    product and the name and code of that product's category. *)
Theorem process_after_aggregate (I C P G : DataFrame) :
  columns I = interactions_columns -> columns C = customers_columns ->
  columns P = products_columns -> columns G = categories_columns ->
  frame_ok I -> frame_ok C -> frame_ok P -> frame_ok G ->
  exists agg out,
    aggregate I C P G = Ok agg
    /\ drop agg process_drop_list = Ok out
    /\ columns out = processed_columns
    /\ len out = len agg
    /\ forall r, In r (rows out) ->
         exists i p g,
           In i (rows I) /\ In p (rows P) /\ In g (rows G)
           /\ field products_columns "_id" p
              = field interactions_columns "productId" i
           /\ field categories_columns "_id" g
              = field products_columns "productCatogoryId" p
           /\ r = i ++ [field products_columns "productName" p;
                        field products_columns "description" p;
                        field categories_columns "productCatrgoryName" g;
                        field categories_columns "productCategoryId" g].
Proof.
  intros HcI HcC HcP HcG HI HC HP HG.
  unfold frame_ok in HI, HC, HP, HG.
  rewrite HcI in HI. rewrite HcC in HC. rewrite HcP in HP. rewrite HcG in HG.
  change (length interactions_columns) with 4%nat in HI.
  change (length customers_columns) with 5%nat in HC.
  change (length products_columns) with 7%nat in HP.
  change (length categories_columns) with 3%nat in HG.
  eexists. eexists.
  split; [apply aggregate_schema; assumption |].
  split; [apply drop_aggregated |].
  split; [reflexivity |].
  split; [unfold len; cbn [rows]; apply length_map |].
  intros r Hr. cbn [rows] in Hr. apply in_map_iff in Hr as (r0 & <- & Hr0).
  apply (in_aggregated_rows _ _ _ _ r0 HI HC) in Hr0
    as (i & c & p & g & Hi & Hc & Hp & Hg & _ & Hk2 & Hk3 & ->).
  exists i, p, g. do 3 (split; [assumption |]).
  rewrite List.Forall_forall in HI, HC, HP, HG.
  destruct (row_of_four i (HI i Hi)) as (a0 & a1 & a2 & a3 & ->).
  destruct (row_of_five c (HC c Hc)) as (b0 & b1 & b2 & b3 & b4 & ->).
  destruct (row_of_seven p (HP p Hp)) as (p0 & p1 & p2 & p3 & p4 & p5 & p6 & ->).
  destruct (row_of_three g (HG g Hg)) as (g0 & g1 & g2 & ->).
  split; [symmetry; exact Hk2 |]. split; [symmetry; exact Hk3 |]. reflexivity.
Qed.

(** ** From the store to the tables *)

Lemma add_new_keys ks : forall acc,
  List.NoDup ks -> (forall k, In k ks -> ~ In k acc) ->
  fold_left (fun acc k => if has_label acc k then acc else acc ++ [k]) ks acc
  = acc ++ ks.
Proof.
  induction ks as [| k ks IH]; intros acc Hnd Hfresh; simpl.
  - symmetry. apply app_nil_r.
  - inversion Hnd as [| ? ? Hk Hnd']; subst.
    assert (Hno : has_label acc k = false).
    { apply has_label_false. apply Hfresh. left. reflexivity. }
    rewrite Hno, IH; [rewrite <- app_assoc; reflexivity | assumption |].
    intros k' Hk' Hin. apply in_app_or in Hin as [Hin | [<- | []]].
    + apply (Hfresh k'); [right; assumption | assumption].
    + contradiction.
Qed.

Lemma add_known_keys ks : forall acc,
  (forall k, In k ks -> In k acc) ->
  fold_left (fun acc k => if has_label acc k then acc else acc ++ [k]) ks acc = acc.
Proof.
  induction ks as [| k ks IH]; intros acc Hknown; simpl; [reflexivity |].
  assert (Hyes : has_label acc k = true).
  { apply has_label_In. apply Hknown. left. reflexivity. }
  rewrite Hyes. apply IH. intros k' Hk'. apply Hknown. right. assumption.
Qed.

(** Records that all carry the same fields give a table with those
    fields as columns and one full row per record. *)
Lemma from_records_shaped cols docs :
  List.NoDup cols -> shaped cols docs ->
  from_records docs = mk_frame cols (map (fun d => map (doc_get d) cols) docs).
Proof.
  intros Hnd [Hne Hall]. unfold from_records.
  assert (Hcols : fold_left add_keys docs [] = cols).
  { destruct docs as [| d ds]; [contradiction |].
    inversion Hall as [| ? ? Hd Hds]; subst. simpl fold_left.
    assert (Hfirst : add_keys [] d = map fst d).
    { unfold add_keys. rewrite add_new_keys; [reflexivity | assumption |].
      intros k _ []. }
    rewrite Hfirst. clear Hfirst Hall Hne.
    induction ds as [| d' ds IH]; [reflexivity |].
    inversion Hds as [| ? ? Hd' Hds']; subst. simpl fold_left.
    assert (Hnext : add_keys (map fst d) d' = map fst d).
    { unfold add_keys. apply add_known_keys. rewrite Hd'. auto. }
    rewrite Hnext. apply IH. assumption. }
  rewrite Hcols. reflexivity.
Qed.

Lemma frame_ok_from_records cols docs :
  frame_ok (mk_frame cols (map (fun d => map (doc_get d) cols) docs)).
Proof.
  unfold frame_ok. cbn [rows columns]. apply List.Forall_forall.
  intros r Hr. apply in_map_iff in Hr as (d & <- & _). apply length_map.
Qed.

Lemma shaped_firstn cols docs :
  shaped cols docs -> shaped cols (firstn (Z.to_nat data_length) docs).
Proof.
  intros [Hne Hall]. split.
  - destruct docs as [| d ds]; [contradiction |].
    assert (Hn : Z.to_nat data_length = S (Z.to_nat (data_length - 1)))
      by (unfold data_length; lia).
    rewrite Hn. discriminate.
  - apply List.Forall_forall. intros d Hd. rewrite List.Forall_forall in Hall.
    apply Hall. rewrite <- (firstn_skipn (Z.to_nat data_length) docs).
    apply in_or_app. left. exact Hd.
Qed.

Lemma declared_columns_NoDup :
  List.NoDup interactions_columns /\ List.NoDup customers_columns
  /\ List.NoDup products_columns /\ List.NoDup categories_columns.
Proof.
  repeat split;
    repeat (apply List.NoDup_cons; [simpl; intuition discriminate |]);
    apply List.NoDup_nil.
Qed.

Lemma process_data_run w df out :
  files w !! (save_path +:+ "aggregated.csv") = Some (CsvFile df) ->
  columns df <> [] ->
  drop df process_drop_list = Ok out ->
  process_data w
  = (Ok tt, mk_world (<[save_path +:+ "processed.csv" := CsvFile out]> (files w))
                     (engine_calls w)).
Proof.
  intros Hfile Hcols Hdrop. unfold process_data.
  rewrite bind_run, (read_csv_run _ _ _ Hfile).
  destruct (columns df); [contradiction |].
  rewrite bind_run. unfold lift. rewrite Hdrop. reflexivity.
Qed.

(** X9: a full run on a well-formed store succeeds.  When each of the
    four collections is non-empty and its records carry the declared
    fields, [load_data] answers "success"; afterwards the log holds the
    stamp of the run, the aggregated table has the eighteen joined
    columns, the processed table the eight projected ones and as many rows,
    the pre-processed table is the cleaned processed table, without NaN and
    without equal rows, and no call was made to the engine. *)
Theorem load_data_succeeds (db : Store) (now : datetime) (w : World)
    (docsI docsC docsP docsG : list Doc) :
  db "interactions" = Ok docsI -> db "customers" = Ok docsC ->
  db "products" = Ok docsP -> db "prodoutCategory" = Ok docsG ->
  shaped interactions_columns docsI -> shaped customers_columns docsC ->
  shaped products_columns docsP -> shaped categories_columns docsG ->
  exists agg out,
    fst (load_data db now w) = Ok "success"
    /\ log_of (snd (load_data db now w)) = Some (stamp now)
    /\ files (snd (load_data db now w)) !! (save_path +:+ "aggregated.csv")
       = Some (CsvFile agg)
    /\ columns agg = aggregated_columns
    /\ files (snd (load_data db now w)) !! (save_path +:+ "processed.csv")
       = Some (CsvFile out)
    /\ columns out = processed_columns
    /\ len out = len agg
    /\ files (snd (load_data db now w)) !! (save_path +:+ "pre_processed.csv")
       = Some (CsvFile (cleaned out))
    /\ no_nan (cleaned out)
    /\ List.NoDup (rows (cleaned out))
    /\ engine_calls (snd (load_data db now w)) = engine_calls w.
Proof.
  intros HI HC HP HG SI SC SP SG.
  destruct declared_columns_NoDup as (NI & NC & NP & NG).
  pose proof (from_records_shaped _ _ NI (shaped_firstn _ _ SI)) as FI.
  pose proof (from_records_shaped _ _ NC (shaped_firstn _ _ SC)) as FC.
  pose proof (from_records_shaped _ _ NP (shaped_firstn _ _ SP)) as FP.
  pose proof (from_records_shaped _ _ NG (shaped_firstn _ _ SG)) as FG.
  set (I := from_records (firstn (Z.to_nat data_length) docsI)) in *.
  set (C := from_records (firstn (Z.to_nat data_length) docsC)) in *.
  set (P := from_records (firstn (Z.to_nat data_length) docsP)) in *.
  set (G := from_records (firstn (Z.to_nat data_length) docsG)) in *.
  assert (HcI : columns I = interactions_columns) by (rewrite FI; reflexivity).
  assert (HcC : columns C = customers_columns) by (rewrite FC; reflexivity).
  assert (HcP : columns P = products_columns) by (rewrite FP; reflexivity).
  assert (HcG : columns G = categories_columns) by (rewrite FG; reflexivity).
  set (agg := mk_frame aggregated_columns
                       (aggregated_rows (rows I) (rows C) (rows P) (rows G))).
  set (out := mk_frame processed_columns
                (map (select [true; true; true; true; false; false; false; false;
                              false; true; false; false; true; false; false;
                              false; true; true]) (rows agg))).
  exists agg, out.
  set (w0 := saved I C P G w).
  set (w1 := mk_world (<[save_path +:+ "aggregated.csv" := CsvFile agg]> (files w0))
                      (engine_calls w)).
  set (w2 := mk_world (<[save_path +:+ "processed.csv" := CsvFile out]> (files w1))
                      (engine_calls w1)).
  set (w3 := mk_world (<[save_path +:+ "pre_processed.csv" := CsvFile (cleaned out)]>
                         (files w2))
                      (engine_calls w2)).
  assert (R1 : aggregate_data w0 = (Ok tt, w1)).
  { unfold w0. rewrite aggregate_data_saved.
    unfold has_columns. rewrite HcI, HcC, HcP, HcG. cbn [andb].
    rewrite (aggregate_schema I C P G HcI HcC HcP HcG). reflexivity. }
  assert (R2 : process_data w1 = (Ok tt, w2)).
  { apply (process_data_run w1 agg out).
    - apply lookup_insert_eq.
    - discriminate.
    - apply drop_aggregated. }
  assert (R3 : pre_process w2 = (Ok tt, w3)).
  { apply (pre_process_run w2 out).
    - apply lookup_insert_eq.
    - discriminate. }
  assert (Hrun : load_data db now w
                 = (Ok "success",
                    mk_world (<[save_path +:+ "log.txt" := stamp now]> (files w3))
                             (engine_calls w3))).
  { unfold load_data. rewrite bind_run.
    rewrite (refresh_saved db now w _ _ _ _ HI HC HP HG).
    fold I C P G w0.
    rewrite (bind_ok _ _ _ _ _ R1), (bind_ok _ _ _ _ _ R2), (bind_ok _ _ _ _ _ R3).
    rewrite update_log_run. reflexivity. }
  rewrite Hrun. cbn [fst snd engine_calls]. unfold log_of.
  unfold w3, w2, w1. cbn [files engine_calls].
  split; [reflexivity |].
  split; [apply lookup_insert_eq |].
  split.
  { rewrite !lookup_insert_ne by path_ne. apply lookup_insert_eq. }
  split; [reflexivity |].
  split.
  { rewrite !lookup_insert_ne by path_ne. apply lookup_insert_eq. }
  split; [reflexivity |].
  split; [unfold len; cbn [rows]; apply length_map |].
  split.
  { rewrite lookup_insert_ne by path_ne. apply lookup_insert_eq. }
  assert (Hok : frame_ok out).
  { unfold frame_ok. apply List.Forall_forall. intros r Hr.
    unfold out in Hr |- *. cbn [rows columns] in Hr |- *.
    apply in_map_iff in Hr as (r0 & <- & Hr0).
    unfold agg in Hr0. cbn [rows] in Hr0.
    rewrite FI, FC, FP, FG in Hr0. cbn [rows] in Hr0.
    pose proof (frame_ok_from_records interactions_columns
                  (firstn (Z.to_nat data_length) docsI)) as OI.
    pose proof (frame_ok_from_records customers_columns
                  (firstn (Z.to_nat data_length) docsC)) as OC.
    pose proof (frame_ok_from_records products_columns
                  (firstn (Z.to_nat data_length) docsP)) as OP.
    pose proof (frame_ok_from_records categories_columns
                  (firstn (Z.to_nat data_length) docsG)) as OG.
    unfold frame_ok in OI, OC, OP, OG. cbn [rows columns] in OI, OC, OP, OG.
    apply (in_aggregated_rows _ _ _ _ r0 OI OC) in Hr0
      as (i & c & p & g & Hi & Hc & Hp & Hg & _ & _ & _ & ->).
    rewrite List.Forall_forall in OI, OC, OP, OG.
    destruct (row_of_four i (OI i Hi)) as (a0 & a1 & a2 & a3 & ->).
    destruct (row_of_five c (OC c Hc)) as (b0 & b1 & b2 & b3 & b4 & ->).
    destruct (row_of_seven p (OP p Hp)) as (p0 & p1 & p2 & p3 & p4 & p5 & p6 & ->).
    destruct (row_of_three g (OG g Hg)) as (g0 & g1 & g2 & ->).
    reflexivity. }
  destruct (cleaned_clean out Hok) as (_ & Hfull & Hnd).
  split; [exact Hfull |]. split; [exact Hnd | reflexivity].
Qed.

(** ** What each stage writes *)

Lemma reads_only_read_csv path : reads_only (read_csv path).
Proof.
  intros w. unfold read_csv.
  destruct (files w !! path) as [[text | df] |]; try reflexivity.
  destruct (columns df); reflexivity.
Qed.

Lemma reads_only_lift {A : Type} (r : result A) : reads_only (lift r).
Proof. intros w. reflexivity. Qed.

Lemma writes_only_bind {A : Type} path (c : M A) (k : A -> M unit) :
  reads_only c -> (forall a, writes_only path (k a)) ->
  writes_only path (c ≫= k).
Proof.
  intros Hc Hk w. rewrite bind_run. specialize (Hc w).
  destruct (c w) as [[a | e] w1]; simpl in Hc; subst w1.
  - apply Hk.
  - left. exists e. reflexivity.
Qed.

Lemma writes_only_to_csv df path : writes_only path (to_csv df path).
Proof. intros w. right. exists df. reflexivity. Qed.

Lemma stages_write_their_own_table_aux :
  writes_only (save_path +:+ "aggregated.csv") aggregate_data
  /\ writes_only (save_path +:+ "processed.csv") process_data
  /\ writes_only (save_path +:+ "pre_processed.csv") pre_process.
Proof.
  split; [| split].
  - unfold aggregate_data.
    repeat (apply writes_only_bind;
            [first [apply reads_only_read_csv | apply reads_only_lift] | intros ?]).
    apply writes_only_to_csv.
  - unfold process_data.
    repeat (apply writes_only_bind;
            [first [apply reads_only_read_csv | apply reads_only_lift] | intros ?]).
    apply writes_only_to_csv.
  - unfold pre_process.
    repeat (apply writes_only_bind;
            [first [apply reads_only_read_csv | apply reads_only_lift] | intros ?]).
    apply writes_only_to_csv.
Qed.

(** X10: each of the three table-building stages either raises and leaves
    every file as it was, or completes and overwrites exactly its own
    table: [aggregate_data] the aggregated one, [process_data] the
    processed one, [pre_process] the pre-processed one.  None of them
    touches the raw snapshots, the log or another stage's table, and none
    leaves a half-made result behind. *)
Theorem stages_write_their_own_table :
  writes_only (save_path +:+ "aggregated.csv") aggregate_data
  /\ writes_only (save_path +:+ "processed.csv") process_data
  /\ writes_only (save_path +:+ "pre_processed.csv") pre_process.
Proof.
  split; [| split].
  - unfold aggregate_data.
    repeat (apply writes_only_bind;
            [first [apply reads_only_read_csv | apply reads_only_lift] | intros ?]).
    apply writes_only_to_csv.
  - unfold process_data.
    repeat (apply writes_only_bind;
            [first [apply reads_only_read_csv | apply reads_only_lift] | intros ?]).
    apply writes_only_to_csv.
  - unfold pre_process.
    repeat (apply writes_only_bind;
            [first [apply reads_only_read_csv | apply reads_only_lift] | intros ?]).
    apply writes_only_to_csv.
Qed.

Lemma keeps_file_bind {A B : Type} path (c : M A) (k : A -> M B) :
  keeps_file path c -> (forall a, keeps_file path (k a)) ->
  keeps_file path (c ≫= k).
Proof.
  intros Hc Hk w. rewrite bind_run. specialize (Hc w).
  destruct (c w) as [[a | e] w1]; simpl in *.
  - rewrite (Hk a w1). assumption.
  - assumption.
Qed.

Lemma keeps_file_writes_only path own c :
  path <> own -> writes_only own c -> keeps_file path c.
Proof.
  intros Hne Hc w. destruct (Hc w) as [(e & ->) | (df & ->)]; [reflexivity |].
  cbn [snd files]. apply lookup_insert_ne. congruence.
Qed.

Lemma keeps_file_update_log path now :
  path <> save_path +:+ "log.txt" -> keeps_file path (update_log now).
Proof.
  intros Hne w. rewrite update_log_run. cbn [snd files].
  apply lookup_insert_ne. congruence.
Qed.

Lemma keeps_file_tables path now :
  In path [save_path +:+ "interactions.csv"; save_path +:+ "customers.csv";
           save_path +:+ "products.csv"; save_path +:+ "prodoutCategory.csv"] ->
  keeps_file path (aggregate_data;; process_data;; pre_process;; update_log now).
Proof.
  intros Hin. destruct stages_write_their_own_table_aux as (HA & HP & HC).
  assert (H1 : path <> save_path +:+ "aggregated.csv"
               /\ path <> save_path +:+ "processed.csv"
               /\ path <> save_path +:+ "pre_processed.csv"
               /\ path <> save_path +:+ "log.txt").
  { simpl in Hin. destruct Hin as [<- | [<- | [<- | [<- | []]]]];
      repeat split; path_ne. }
  destruct H1 as (N1 & N2 & N3 & N4).
  apply keeps_file_bind; [apply (keeps_file_writes_only _ _ _ N1 HA) | intros _].
  apply keeps_file_bind; [apply (keeps_file_writes_only _ _ _ N2 HP) | intros _].
  apply keeps_file_bind; [apply (keeps_file_writes_only _ _ _ N3 HC) | intros _].
  apply keeps_file_update_log. assumption.
Qed.

(** ** The Extractor *)

(** X11: the store is queried before anything is written.  If one of the
    four queries fails, the refresh block raises that error (the error of
    the first query that fails, in the order interactions, customers,
    products, product categories) and leaves every file, the log included,
    as it was. *)
Theorem store_failure_writes_nothing (db : Store) (now : datetime) (w : World) :
  is_ok (db "interactions") && is_ok (db "customers")
  && is_ok (db "products") && is_ok (db "prodoutCategory") = false ->
  exists e,
    refresh db now w = (Raise e, w)
    /\ (db "interactions" = Raise e
        \/ (is_ok (db "interactions") = true /\ db "customers" = Raise e)
        \/ (is_ok (db "interactions") = true /\ is_ok (db "customers") = true
            /\ db "products" = Raise e)
        \/ (is_ok (db "interactions") = true /\ is_ok (db "customers") = true
            /\ is_ok (db "products") = true /\ db "prodoutCategory" = Raise e)).
Proof.
  intros Hfail. unfold refresh.
  rewrite bind_run. unfold find_to_list at 1. unfold lift.
  destruct (db "interactions") as [dI | e] eqn:HI; cbn [rbind];
    [| exists e; split; [reflexivity | left; reflexivity]].
  rewrite bind_run. unfold find_to_list at 1. unfold lift.
  destruct (db "customers") as [dC | e] eqn:HC; cbn [rbind];
    [| exists e; split; [reflexivity | right; left; auto]].
  rewrite bind_run. unfold find_to_list at 1. unfold lift.
  destruct (db "products") as [dP | e] eqn:HP; cbn [rbind];
    [| exists e; split; [reflexivity | right; right; left; auto]].
  rewrite bind_run. unfold find_to_list at 1. unfold lift.
  destruct (db "prodoutCategory") as [dG | e] eqn:HG; cbn [rbind];
    [discriminate Hfail | exists e; split; [reflexivity | right; right; right; auto]].
Qed.

(** X12: a run is not undone when a later stage fails.  Once the four
    queries have answered, the four raw snapshots hold the tables built
    from the answers (cut at [data_length] records), whether the run then
    completes or raises. *)
Theorem raw_snapshots_replaced (db : Store) (now : datetime) (w : World)
    (docsI docsC docsP docsG : list Doc) :
  db "interactions" = Ok docsI -> db "customers" = Ok docsC ->
  db "products" = Ok docsP -> db "prodoutCategory" = Ok docsG ->
  let w' := snd (refresh db now w) in
  files w' !! (save_path +:+ "interactions.csv")
  = Some (CsvFile (from_records (firstn (Z.to_nat data_length) docsI)))
  /\ files w' !! (save_path +:+ "customers.csv")
     = Some (CsvFile (from_records (firstn (Z.to_nat data_length) docsC)))
  /\ files w' !! (save_path +:+ "products.csv")
     = Some (CsvFile (from_records (firstn (Z.to_nat data_length) docsP)))
  /\ files w' !! (save_path +:+ "prodoutCategory.csv")
     = Some (CsvFile (from_records (firstn (Z.to_nat data_length) docsG))).
Proof.
  intros HI HC HP HG w'. subst w'.
  rewrite (refresh_saved db now w _ _ _ _ HI HC HP HG).
  destruct (saved_lookup (from_records (firstn (Z.to_nat data_length) docsI))
              (from_records (firstn (Z.to_nat data_length) docsC))
              (from_records (firstn (Z.to_nat data_length) docsP))
              (from_records (firstn (Z.to_nat data_length) docsG)) w)
    as (LI & LC & LP & LG).
  repeat split.
  - rewrite (keeps_file_tables _ now) by (simpl; auto). exact LI.
  - rewrite (keeps_file_tables _ now) by (simpl; auto). exact LC.
  - rewrite (keeps_file_tables _ now) by (simpl; auto). exact LP.
  - rewrite (keeps_file_tables _ now) by (simpl; auto). exact LG.
Qed.

(** ** The serving endpoints, further *)

Lemma load_log_stamped now t w :
  log_of w = Some (stamp t) -> valid t = true ->
  load_log now w = (Ok (timedelta_hours 1 <? sub now (to_seconds t))%Z, w).
Proof.
  intros Hlog Hv. unfold log_of, stamp in Hlog.
  rewrite (load_log_run now w _ Hlog). fold log_format.
  change "Last updated: " with log_marker. unfold log_marker at 1 2.
  rewrite split_marker_first by (apply strftime_no_marker; assumption).
  cbn [subscript nth_error rbind].
  rewrite strptime_strftime by assumption. reflexivity.
Qed.

Lemma serve_run {Recs Stat : Type}
    (engine : string -> Z -> gmap string File -> result (Recs * Stat))
    (user_id : string) (num_of_rec : Z) (w : World) :
  ((if truthy num_of_rec
    then get_rec engine user_id num_of_rec
    else get_rec engine user_id 5) ≫= (fun r => mret (fst r))) w
  = (match engine user_id (passed_num_of_rec num_of_rec) (files w) with
     | Ok r => Ok (fst r)
     | Raise e => Raise e
     end,
     mk_world (files w)
              (engine_calls w ++ [(user_id, passed_num_of_rec num_of_rec)])).
Proof.
  rewrite bind_run, get_rec_arg_run.
  destruct (engine _ _ _); reflexivity.
Qed.

(** X16: serving without refresh postpones the next conditional refresh.
    After a [get_recommendation] answered at clock reading [t], a
    [get_recommendation_load_update] request made no more than one hour
    after [t] (to the second) does not query the store and writes no
    file, however old the tables are; its answer is the engine's on the
    files as they stand at the time. *)
Theorem serve_postpones_refresh {Recs Stat : Type}
    (engine : string -> Z -> gmap string File -> result (Recs * Stat))
    (db : Store) (user_id user_id' : string) (num_of_rec num_of_rec' : Z)
    (t now now' : datetime) (w : World) :
  valid t = true ->
  is_ok (fst (get_recommendation engine user_id num_of_rec t w)) = true ->
  (sub now (to_seconds t) <= timedelta_hours 1)%Z ->
  let w1 := snd (get_recommendation engine user_id num_of_rec t w) in
  let passed := if (num_of_rec' =? 0)%Z then 5%Z else num_of_rec' in
  get_recommendation_load_update engine db user_id' num_of_rec' now now' w1
  = (match engine user_id' passed (files w1) with
     | Ok r => Ok (fst r)
     | Raise e => Raise e
     end,
     mk_world (files w1) (engine_calls w1 ++ [(user_id', passed)]))
  /\ forall path, path <> save_path +:+ "log.txt" ->
       files w1 !! path = files w !! path.
Proof.
  intros Hv Hok Hfresh w1 passed.
  assert (Hp : passed = passed_num_of_rec num_of_rec') by reflexivity.
  rewrite Hp. clear Hp passed.
  assert (Hw1 : log_of w1 = Some (stamp t)
                /\ forall path, path <> save_path +:+ "log.txt" ->
                     files w1 !! path = files w !! path).
  { subst w1. unfold get_recommendation in *.
    rewrite bind_run, get_rec_arg_run in *.
    destruct (engine _ _ _) as [r | e]; [| discriminate Hok].
    rewrite bind_run, update_log_run. cbn [snd files]. unfold log_of. cbn [files].
    split; [apply lookup_insert_eq |].
    intros path Hne. apply lookup_insert_ne. congruence. }
  destruct Hw1 as [Hlog Hother]. split; [| exact Hother].
  unfold get_recommendation_load_update. rewrite bind_run.
  rewrite (load_log_stamped now t w1 Hlog Hv).
  assert (Hnot : (timedelta_hours 1 <? sub now (to_seconds t))%Z = false)
    by (apply Z.ltb_ge; assumption).
  rewrite Hnot. rewrite bind_run. change ((mret tt : M unit) w1) with (Ok tt, w1).
  apply serve_run.
Qed.

(** X17: a completed run makes the log fresh for one hour.  After the
    refresh block has completed at clock reading [t], the staleness test
    returns, and says stale exactly when more than one hour has passed
    since [t] (to the second). *)
Theorem completed_run_is_fresh (db : Store) (t now : datetime) (w : World) :
  valid t = true ->
  fst (refresh db t w) = Ok tt ->
  load_log now (snd (refresh db t w))
  = (Ok (timedelta_hours 1 <? sub now (to_seconds t))%Z, snd (refresh db t w)).
Proof.
  intros Hv Hok.
  destruct (stamps_refresh db t w)
    as [(e & w' & Hrun & _) | (w' & Hrun & Hlog & _)];
    rewrite Hrun in Hok |- *; cbn [fst snd] in *; [discriminate |].
  apply load_log_stamped; assumption.
Qed.

(** ** The further properties at work on the sample *)

Lemma pre_process_output_clean_witness :
  exists out,
    files (snd (pre_process hundred_world)) !! (save_path +:+ "pre_processed.csv")
    = Some (CsvFile out)
    /\ no_nan out /\ List.NoDup (rows out).
Proof.
  assert (Hfile : files hundred_world !! (save_path +:+ "processed.csv")
                  = Some (CsvFile hundred_rows)) by (vm_compute; reflexivity).
  assert (Hcols : columns hundred_rows <> []) by discriminate.
  destruct (pre_process_output_clean hundred_world hundred_rows Hfile Hcols)
    as (out & Hrun & Hfull & Hnd & _).
  exists out. rewrite Hrun. cbn [snd files].
  split; [apply lookup_insert_eq |]. split; assumption.
Defined.

Ltac sample_NoDup :=
  repeat (apply List.NoDup_cons; [simpl; intuition discriminate |]);
  apply List.NoDup_nil.

Lemma pre_process_keeps_clean_witness :
  files (snd (pre_process processed_world)) !! (save_path +:+ "pre_processed.csv")
  = Some (CsvFile sample_processed).
Proof.
  assert (Hfile : files processed_world !! (save_path +:+ "processed.csv")
                  = Some (CsvFile sample_processed)) by (vm_compute; reflexivity).
  assert (Hcols : columns sample_processed <> []) by discriminate.
  assert (Hok : frame_ok sample_processed) by sample_frame_ok.
  assert (Hfull : no_nan sample_processed)
    by (unfold no_nan; vm_compute; repeat constructor).
  assert (Hnd : List.NoDup (rows sample_processed))
    by (vm_compute; sample_NoDup).
  rewrite (pre_process_keeps_clean_table processed_world sample_processed
             Hfile Hcols Hok Hfull Hnd).
  cbn [snd files]. apply lookup_insert_eq.
Defined.

Lemma pre_process_idempotent_witness :
  exists out,
    fst (pre_process hundred_world) = Ok tt
    /\ forall w2,
         files w2 !! (save_path +:+ "processed.csv") = Some (CsvFile out) ->
         columns out <> [] ->
         files (snd (pre_process w2)) !! (save_path +:+ "pre_processed.csv")
         = Some (CsvFile out).
Proof.
  assert (Hfile : files hundred_world !! (save_path +:+ "processed.csv")
                  = Some (CsvFile hundred_rows)) by (vm_compute; reflexivity).
  assert (Hcols : columns hundred_rows <> []) by discriminate.
  assert (Hok : frame_ok hundred_rows) by sample_frame_ok.
  destruct (pre_process_idempotent hundred_world hundred_rows Hfile Hcols Hok)
    as (out & Hrun & Hagain).
  exists out. rewrite Hrun. split; [reflexivity |].
  intros w2 Hf Hc. rewrite (Hagain w2 Hf Hc). cbn [snd files].
  apply lookup_insert_eq.
Defined.

Lemma aggregate_keeps_each_once_witness :
  exists agg,
    files (snd (aggregate_data (saved I0 C0 P0 G0 fresh_world)))
      !! (save_path +:+ "aggregated.csv") = Some (CsvFile agg)
    /\ len agg = 4%nat.
Proof.
  assert (HI : frame_ok I0) by sample_frame_ok.
  assert (HC : frame_ok C0) by sample_frame_ok.
  assert (NC : unique_id C0) by sample_unique_id.
  assert (NP : unique_id P0) by sample_unique_id.
  assert (NG : unique_id G0) by sample_unique_id.
  destruct (saved_lookup I0 C0 P0 G0 fresh_world) as (FI & FC & FP & FG).
  destruct (aggregate_keeps_each_interaction_once (saved I0 C0 P0 G0 fresh_world)
              I0 C0 P0 G0 FI FC FP FG eq_refl eq_refl eq_refl eq_refl
              HI HC NC NP NG)
    as (agg & ids & Hrun & _ & _ & _ & Hlen).
  exists agg. rewrite Hrun. cbn [snd files].
  split; [apply lookup_insert_eq |].
  rewrite Hlen. vm_compute. reflexivity.
Defined.

Lemma process_after_aggregate_witness :
  exists agg out,
    aggregate I0 C0 P0 G0 = Ok agg
    /\ drop agg process_drop_list = Ok out
    /\ columns out = processed_columns.
Proof.
  assert (HI : frame_ok I0) by sample_frame_ok.
  assert (HC : frame_ok C0) by sample_frame_ok.
  assert (HP : frame_ok P0) by sample_frame_ok.
  assert (HG : frame_ok G0) by sample_frame_ok.
  destruct (process_after_aggregate I0 C0 P0 G0
              eq_refl eq_refl eq_refl eq_refl HI HC HP HG)
    as (agg & out & Hagg & Hout & Hcols & _).
  exists agg, out. auto.
Defined.

Ltac sample_shaped :=
  split; [discriminate | repeat constructor].

Lemma load_data_succeeds_witness :
  fst (load_data sample_db new_year_eve fresh_world) = Ok "success"
  /\ log_of (snd (load_data sample_db new_year_eve fresh_world))
     = Some (stamp new_year_eve).
Proof.
  assert (SI : shaped interactions_columns sample_interactions) by sample_shaped.
  assert (SC : shaped customers_columns sample_customers) by sample_shaped.
  assert (SP : shaped products_columns sample_products) by sample_shaped.
  assert (SG : shaped categories_columns sample_categories) by sample_shaped.
  destruct (load_data_succeeds sample_db new_year_eve fresh_world
              sample_interactions sample_customers sample_products
              sample_categories eq_refl eq_refl eq_refl eq_refl SI SC SP SG)
    as (agg & out & Hok & Hlog & _).
  split; assumption.
Defined.

Lemma store_failure_witness :
  refresh failing_db new_year_eve stamped_world = (Raise StoreError, stamped_world).
Proof.
  destruct (store_failure_writes_nothing failing_db new_year_eve stamped_world
              eq_refl) as (e & Hrun & Hwhich).
  rewrite Hrun. f_equal. f_equal.
  destruct Hwhich as [H | [[_ H] | [(_ & _ & H) | (_ & _ & H & _)]]];
    vm_compute in H; congruence.
Defined.

Lemma raw_snapshots_replaced_witness :
  fst (refresh no_customers_db new_year_eve fresh_world) = Raise EmptyDataError
  /\ files (snd (refresh no_customers_db new_year_eve fresh_world))
       !! (save_path +:+ "interactions.csv")
     = Some (CsvFile I0).
Proof.
  split; [vm_compute; reflexivity |].
  destruct (raw_snapshots_replaced no_customers_db new_year_eve fresh_world
              sample_interactions [] sample_products sample_categories
              eq_refl eq_refl eq_refl eq_refl) as (HI & _).
  rewrite HI. vm_compute. reflexivity.
Defined.

Lemma serve_postpones_refresh_witness :
  files (snd (get_recommendation_load_update no_engine sample_db "u2" 3
                (new_year 0 30 0 0) (new_year 0 30 0 0)
                (snd (get_recommendation no_engine "u1" 0 new_year_eve fresh_world))))
    !! (save_path +:+ "interactions.csv")
  = None.
Proof.
  assert (Hfresh : (sub (new_year 0 30 0 0) (to_seconds new_year_eve)
                    <= timedelta_hours 1)%Z) by (vm_compute; discriminate).
  destruct (serve_postpones_refresh no_engine sample_db "u1" "u2" 0 3
              new_year_eve (new_year 0 30 0 0) (new_year 0 30 0 0) fresh_world
              eq_refl eq_refl Hfresh) as [Hrun Hother].
  rewrite Hrun. cbn [snd files].
  rewrite Hother by path_ne. reflexivity.
Defined.

Lemma completed_run_is_fresh_witness :
  fst (load_log (new_year 0 30 0 0) sample_world) = Ok false
  /\ fst (load_log (new_year 0 30 1 0) sample_world) = Ok true.
Proof.
  assert (Hok : fst (refresh sample_db new_year_eve fresh_world) = Ok tt)
    by (vm_compute; reflexivity).
  unfold sample_world. split.
  - rewrite (completed_run_is_fresh sample_db new_year_eve (new_year 0 30 0 0)
               fresh_world eq_refl Hok).
    vm_compute. reflexivity.
  - rewrite (completed_run_is_fresh sample_db new_year_eve (new_year 0 30 1 0)
               fresh_world eq_refl Hok).
    vm_compute. reflexivity.
Defined.

